(** * quVario: variational ground-state energy of hydrogen, and the
    Monte Carlo integrator of the helium package.

    Shallow embedding of [helium_marki/hydr_var.py] and of the two jitted
    functions of [helium_markii/optipack.py].

    - Python and NumPy floats are IEEE-754 binary64 numbers, modelled by
      [spec_float] with precision 53 and maximal exponent 1024.
    - SymPy expressions are trees; SymPy's automatic canonical ordering of
      arguments is not modelled, expressions are compared by denotation.
    - SymPy and SciPy entry points (simplify, lambdify, the vector
      operator Del, quad, fmin, parse_expr) and the file system are the
      fields of a [Backend]: pure, possibly failing functions.
    - Exceptions are the left summand of [result]; console output and
      calls to the backend are events appended to the [world]. *)

From Stdlib Require Import ZArith List String Bool Lia Reals Lra.
From Stdlib Require Import Floats.SpecFloat FunctionalExtensionality.
Import ListNotations.

Set Implicit Arguments.
Set Warnings "-register-all".

(* ================================================================== *)
(** ** Binary64 floats with Python's arithmetic *)

Module PyFloat.

Definition prec : Z := 53.
Definition emax : Z := 1024.

Definition float := spec_float.

Definition of_Z (z : Z) : float := binary_normalize prec emax z 0 false.

Definition zero : float := of_Z 0.
Definition one : float := of_Z 1.

Definition add : float -> float -> float := SFadd prec emax.
Definition sub : float -> float -> float := SFsub prec emax.
Definition mul : float -> float -> float := SFmul prec emax.
Definition div : float -> float -> float := SFdiv prec emax.
Definition sqrt : float -> float := SFsqrt prec emax.
Definition ltb : float -> float -> bool := SFltb.

Definition is_zero (x : float) : bool :=
  match x with S754_zero _ => true | _ => false end.

Definition is_nan (x : float) : bool :=
  match x with S754_nan => true | _ => false end.

(** A strictly positive finite number. *)
Definition is_pos_finite (x : float) : bool :=
  match x with S754_finite false _ _ => true | _ => false end.

(** The literal [0.1]. *)
Definition lit_0_1 : float := S754_finite false 7205759403792794 (-56).

(** The real number a finite float stands for (0 for infinities and NaN,
    which stand for no real number). *)
Definition to_R (x : float) : R :=
  match x with
  | S754_finite s m e => IZR (cond_Zopp s (Zpos m)) * powerRZ 2 e
  | _ => 0%R
  end.

End PyFloat.

Definition float : Type := PyFloat.float.

(* ================================================================== *)
(** ** Exceptions *)

Inductive exn : Type :=
| ZeroDivisionError
| ValueError
| IndexError
| UnboundLocalError
| LibraryError (what : string).

Definition result (A : Type) : Type := (exn + A)%type.

Definition Ok {A} (a : A) : result A := inr a.
Definition Raise {A} (e : exn) : result A := inl e.

Definition rbind {A B} (r : result A) (k : A -> result B) : result B :=
  match r with
  | inl e => inl e
  | inr a => k a
  end.

(** Python's [x / y] on floats: a zero divisor raises, every other
    divisor gives the IEEE quotient (which may be infinite or NaN). *)
Definition truediv (x y : float) : result float :=
  if PyFloat.is_zero y then Raise ZeroDivisionError else Ok (PyFloat.div x y).

(* ================================================================== *)
(** ** SymPy expressions *)

(** [CoordSys3D(name, transformation = ...)]. *)
Record CoordSys3D : Type := mkCoordSys {
  cs_name : string;
  transformation : string
}.

Inductive expr : Type :=
| BaseScalar (sys : CoordSys3D) (i : nat)   (* R.r, R.theta, R.phi *)
| Symbol (name : string)
| Integer (z : Z)
| Float (f : float)
| Add (a b : expr)
| Mul (a b : expr)
| Pow (b e : expr)
| conjugate (a : expr)
| exp (a : expr)
| Function (name : string) (a : expr).

(** Python operators on SymPy objects. *)
Definition sym_mul (a b : expr) : expr := Mul a b.
Definition sym_sub (a b : expr) : expr := Add a (Mul (Integer (-1)) b).
Definition sym_pow (a : expr) (n : Z) : expr := Pow a (Integer n).
(** [n / a] for a Python integer [n]: [Mul(n, Pow(a, -1))]. *)
Definition sym_rtruediv (n : Z) (a : expr) : expr :=
  Mul (Integer n) (Pow a (Integer (-1))).

(** [e.subs(Symbol(name), by)]. *)
Fixpoint subs (name : string) (by_ : expr) (e : expr) : expr :=
  match e with
  | Symbol n => if String.eqb n name then by_ else e
  | BaseScalar _ _ | Integer _ | Float _ => e
  | Add a b => Add (subs name by_ a) (subs name by_ b)
  | Mul a b => Mul (subs name by_ a) (subs name by_ b)
  | Pow a b => Pow (subs name by_ a) (subs name by_ b)
  | conjugate a => conjugate (subs name by_ a)
  | exp a => exp (subs name by_ a)
  | Function f a => Function f (subs name by_ a)
  end.

(** Valuations of the atoms, at real points. *)
Record valuation : Type := mkValuation {
  val_base : CoordSys3D -> nat -> R;
  val_symbol : string -> R;
  val_function : string -> R -> R
}.

(** The real value of an expression at a real point. *)
Fixpoint denote (v : valuation) (e : expr) : R :=
  match e with
  | BaseScalar sys i => val_base v sys i
  | Symbol n => val_symbol v n
  | Integer z => IZR z
  | Float f => PyFloat.to_R f
  | Add a b => denote v a + denote v b
  | Mul a b => denote v a * denote v b
  | Pow b ex =>
      match ex with
      | Integer z => powerRZ (denote v b) z
      | _ => Rpower (denote v b) (denote v ex)
      end
  | conjugate a => denote v a
  | exp a => Rtrigo_def.exp (denote v a)
  | Function f a => val_function v f (denote v a)
  end.

(** A lambdified expression: a Python function of (r, alpha). *)
Definition callable : Type := float -> float -> result float.

(* ================================================================== *)
(** ** The symbolic and numeric backend *)

Class Backend : Type := {
  (** the type of SymPy vector fields *)
  vector : Type;
  (** [Del()(f)], the gradient of a scalar field, unevaluated *)
  Del_call : expr -> vector;
  (** [Del().dot(v)], the divergence of a vector field, unevaluated *)
  Del_dot : vector -> expr;
  (** [e.doit()] *)
  doit : expr -> expr;
  simplify : expr -> result expr;
  (** [lambdify((R.r, alpha), e, 'scipy')] *)
  lambdify : list expr -> expr -> string -> result callable;
  (** [quad(f, a, b, args = (p))]: the integral and an error estimate *)
  quad : callable -> float -> float -> float -> result (float * float);
  (** [fmin(func, x0, disp = 0, full_output = 1)[0:2]] *)
  fmin : (float -> result float) -> float -> result (float * float);
  parse_expr : string -> result expr;
  (** the lines of a text file *)
  open_ : string -> result (list string)
}.

(* ================================================================== *)
(** ** The world: console output and backend calls, in order *)

Inductive event : Type :=
| Print_header                                   (* 'In atomic units,' *)
| Print_result (psi : expr) (alpha_op energy_min : float)
| Print_overall (overall : float)
| Call_open (txtdoc : string)
| Call_parse_expr (line : string)
| Call_simplify (e : expr)
| Call_lambdify (args : list expr) (e : expr)
| Call_quad (f : callable) (a b : float) (p : float)
| Call_fmin (x0 : float).

Definition world : Type := list event.

(** A computation reads and updates a state, and returns a value or
    raises; what was written before an exception stays written. *)
Definition ST (S A : Type) : Type := S -> result A * S.

Definition ret {S A} (a : A) : ST S A := fun s => (Ok a, s).

Definition bind {S A B} (c : ST S A) (k : A -> ST S B) : ST S B :=
  fun s =>
    match c s with
    | (inl e, s') => (inl e, s')
    | (inr a, s') => k a s'
    end.

Definition lift {S A} (r : result A) : ST S A := fun s => (r, s).

Definition value {S A} (c : ST S A) (s : S) : result A := fst (c s).
Definition after {S A} (c : ST S A) (s : S) : S := snd (c s).

Declare Scope py_scope.
Delimit Scope py_scope with py.
Notation "x <- c ;; k" := (bind c (fun x => k))
  (at level 61, c at next level, right associativity) : py_scope.
Notation "' p <- c ;; k" := (bind c (fun x => match x with p => k end))
  (at level 61, p pattern, c at next level, right associativity) : py_scope.
Notation "c ;; k" := (bind c (fun _ => k))
  (at level 61, right associativity) : py_scope.
Local Open Scope py_scope.

(** [for x in xs: acc = body(acc, x)] *)
Fixpoint for_each {S A T} (xs : list A) (body : T -> A -> ST S T) (acc : T)
    : ST S T :=
  match xs with
  | [] => ret acc
  | x :: xs' => acc' <- body acc x ;; for_each xs' body acc'
  end.

(** The computations of hydr_var.py run on the world. *)
Definition M (A : Type) : Type := ST world A.

Definition emit (e : event) : M unit := fun w => (Ok tt, w ++ [e]).

(** Python's [min] of a list: the first element that no later element is
    [<] than; [ValueError] on the empty list. *)
Definition py_min (l : list float) : result float :=
  match l with
  | [] => Raise ValueError
  | x :: rest =>
      Ok (fold_left (fun m y => if PyFloat.ltb y m then y else m) rest x)
  end.

(* ================================================================== *)
(** ** helium_marki/hydr_var.py *)

Module hydr_var.
Section Program.

Context {B : Backend}.

(** Calls to the backend, recorded in the world. *)
Definition call_open (txtdoc : string) : M (list string) :=
  emit (Call_open txtdoc) ;; lift (open_ txtdoc).
Definition call_parse_expr (line : string) : M expr :=
  emit (Call_parse_expr line) ;; lift (parse_expr line).
Definition call_simplify (e : expr) : M expr :=
  emit (Call_simplify e) ;; lift (simplify e).
Definition call_lambdify (args : list expr) (e : expr) : M callable :=
  emit (Call_lambdify args e) ;; lift (lambdify args e "scipy").
Definition call_quad (f : callable) (a b p : float) : M (float * float) :=
  emit (Call_quad f a b p) ;; lift (quad f a b p).
(** The minimizer runs the objective as a callback; the callback's own
    writes are internal to the call and are not kept. *)
Definition call_fmin (func : float -> M float) (x0 : float) : M (float * float) :=
  fun w => (fmin (fun a => value (func a) w) x0, w ++ [Call_fmin x0]).

Definition print (e : event) : M unit := emit e.

(** [R = CoordSys3D('R', transformation = 'spherical')] *)
Definition R : CoordSys3D := mkCoordSys "R" "spherical".
Definition R_r : expr := BaseScalar R 0.

(** [alpha = symbols('alpha', real = 0)] *)
Definition alpha : expr := Symbol "alpha".

Definition inf : float := PyFloat.of_Z 1000.

(** [del2 = delop.dot(delop(f)).doit()] *)
Definition del2 (f : expr) : expr := doit (Del_dot (Del_call f)).

(** [H = - 1 / 2 * del2(psi) - 1 / R.r * psi]; [- 1 / 2] is the Python
    float quotient of the integers -1 and 2. *)
Definition H (psi : expr) : expr :=
  sym_sub
    (sym_mul (Float (PyFloat.div (PyFloat.of_Z (-1)) (PyFloat.of_Z 2))) (del2 psi))
    (sym_mul (sym_rtruediv 1 R_r) psi).

(** [jacobian = R.r ** 2] *)
Definition jacobian : expr := sym_pow R_r 2.

(** The body of [for line in f]. *)
Definition read_line (trialfuncs : list expr) (line : string) : M (list expr) :=
  x <- call_parse_expr line ;;
  let x := subs "r" R_r x in
  ret (trialfuncs ++ [x]).

Definition readtrialfuncs (txtdoc : string) : M (list expr) :=
  f <- call_open txtdoc ;;
  for_each f read_line [].

Definition expectation_intgrl (expectation_lamb : callable)
    (a stpt endpt : float) : M float :=
  expectation_integral <- call_quad expectation_lamb PyFloat.zero endpt a ;;
  ret (fst expectation_integral).

Definition norm_intgrl (norm_lamb : callable) (a stpt endpt : float) : M float :=
  norm_intgrl <- call_quad norm_lamb stpt endpt a ;;
  N_squared <- lift (truediv PyFloat.one (fst norm_intgrl)) ;;
  ret N_squared.

Definition var_intgrl (a : float) (expectation_lamb norm_lamb : callable)
    (stpt endpt : float) : M float :=
  n <- norm_intgrl norm_lamb a stpt endpt ;;
  e <- expectation_intgrl expectation_lamb a stpt endpt ;;
  ret (PyFloat.mul n e).

(** The defaults [stpt = 0, endpt = 1000]: Python integers, which [quad]
    converts to floats. *)
Definition default_stpt : float := PyFloat.zero.
Definition default_endpt : float := PyFloat.of_Z 1000.

Definition energy (psi : expr) : M (float * float) :=
  expectation <- call_simplify (sym_mul (conjugate psi) (H psi)) ;;
  expectation_lamb <- call_lambdify [R_r; alpha] (sym_mul expectation jacobian) ;;
  let norm := sym_mul (conjugate psi) psi in
  norm_lamb <- call_lambdify [R_r; alpha] (sym_mul norm jacobian) ;;
  let initial_guess := PyFloat.lit_0_1 in
  call_fmin
    (fun a => var_intgrl a expectation_lamb norm_lamb default_stpt default_endpt)
    initial_guess.

Definition default_txtdoc : string := "hydr_var_trialfuncs.txt".

(** The body of [for psi in readtrialfuncs()]; formatting the line with
    [float(alpha_op)] and [%f] is taken not to fail. *)
Definition candidate (energies : list float) (psi : expr) : M (list float) :=
  ' (alpha_op, energy_min) <- energy psi ;;
  let energies := energies ++ [energy_min] in
  print (Print_result psi alpha_op energy_min) ;;
  ret energies.

Definition main : M float :=
  print Print_header ;;
  trialfuncs <- readtrialfuncs default_txtdoc ;;
  energies <- for_each trialfuncs candidate [] ;;
  overall_energy_min <- lift (py_min energies) ;;
  ret overall_energy_min.

(** The module's last statement:
    [print('\nThe overall maximum energy is %f.' % main())]. *)
Definition script : M unit :=
  overall <- main ;;
  print (Print_overall overall).

End Program.
End hydr_var.

(* ================================================================== *)
(** ** helium_markii/optipack.py: the jitted Monte Carlo functions *)

(** What the jitted functions run on: NumPy's global random generator,
    where [rand] is one draw of [np.random.rand] and [randint] is
    [np.random.randint(low, high)], and [stray], the number found in the
    memory after an array when it is read past its end. *)
Class Random : Type := {
  rng : Type;
  rand : rng -> float * rng;
  randint : float -> float -> rng -> result nat * rng;
  stray : rng -> float
}.

Module optipack.

(** [print('Iteration cycle complete, result = ', ...)] *)
Inductive line : Type :=
| Print_cycle (vals_avg std_error rejects alpha : float).

Definition point : Type := list float.
Definition matrix : Type := list point.

(** A density or an observable: a function of a point and the parameter. *)
Definition func : Type := point -> float -> result float.

(** [np.reshape(m, (1, dims))[0]] *)
Definition reshape_row (m : matrix) (dims : nat) : result point :=
  let flat := List.concat m in
  if Nat.eqb (List.length flat) dims then Ok flat else Raise ValueError.

(** [m[i]] for a row index that the generator drew. NumPy's [randint]
    returns an index below its bound, so the row exists; an index out of
    range, which only a generator outside that contract returns, is
    reported as [IndexError]. *)
Definition index {A} (l : list A) (i : nat) : result A :=
  match nth_error l i with
  | Some x => Ok x
  | None => Raise IndexError
  end.

(** [l[i] = x] *)
Fixpoint set_index {A} (l : list A) (i : nat) (x : A) : result (list A) :=
  match l, i with
  | [], _ => Raise IndexError
  | _ :: l', O => Ok (x :: l')
  | y :: l', S i' => rbind (set_index l' i' x) (fun r => Ok (y :: r))
  end.

(** [np.sum(a)]: accumulation from 0., left to right. *)
Definition np_sum (a : list float) : float := fold_left PyFloat.add a PyFloat.zero.

(** [x ** 2] *)
Definition square (x : float) : float := PyFloat.mul x x.

(** [a + b] on rows. *)
Fixpoint row_add (a b : point) : point :=
  match a, b with
  | x :: a', y :: b' => PyFloat.add x y :: row_add a' b'
  | _, _ => []
  end.

Section Program.

Context {G : Random}.

(** The state: the generator and the console. *)
Definition state : Type := (rng * list line)%type.
Definition MC (A : Type) : Type := ST state A.

Definition np_random_rand : MC float :=
  fun st => let (u, g) := rand (fst st) in (Ok u, (g, snd st)).

(** [np.random.rand(3)] *)
Definition np_random_rand3 : MC point :=
  u0 <- np_random_rand ;;
  u1 <- np_random_rand ;;
  u2 <- np_random_rand ;;
  ret [u0; u1; u2].

Definition np_random_randint (low high : float) : MC nat :=
  fun st => let (r, g) := randint low high (fst st) in (r, (g, snd st)).

Definition print (l : line) : MC unit :=
  fun st => (Ok tt, (fst st, snd st ++ [l])).

(** [l[i]] for a constant index, in jitted code: the bound is not
    checked, and an index past the end reads what is in memory there. *)
Definition unchecked_read (l : point) (i : nat) : MC float :=
  fun st =>
    (Ok (match nth_error l i with
         | Some x => x
         | None => stray (fst st)
         end), st).

Definition of_nat (n : nat) : float := PyFloat.of_Z (Z.of_nat n).

(** [s = 3.] *)
Definition s : float := PyFloat.of_Z 3.

(** [2.*s*u - s], on each entry of [u]. *)
Definition spread (u : point) : point :=
  map (fun x =>
         PyFloat.sub (PyFloat.mul (PyFloat.mul (PyFloat.of_Z 2) s) x) s) u.

(** [dims/3], and [int(dims/3)] (exact below 2^53). *)
Definition dims_3 (dims : nat) : float := PyFloat.div (of_nat dims) (PyFloat.of_Z 3).
Definition int_dims_3 (dims : nat) : nat := Nat.div dims 3.

(** The local variables of the sampling loop. *)
Record mh_locals : Type := mkLocals {
  initial_matrix : matrix;
  reject_ratio : float;
  test : list float;
  samples : list point
}.

(** One turn of [for i in range(iter)]. *)
Definition mh_step (pfunc : func) (iter : nat) (alpha : float) (dims : nat)
    (l : mh_locals) (i : nat) : MC mh_locals :=
  let equi_threshold := 0%Z in
  let therm := 1%Z in
  e_index <- np_random_randint PyFloat.zero (dims_3 dims) ;;
  let trial_matrix := initial_matrix l in
  row <- lift (index trial_matrix e_index) ;;
  u <- np_random_rand3 ;;
  let step := map (fun x => PyFloat.div x (dims_3 dims)) (spread u) in
  trial_matrix <- lift (set_index trial_matrix e_index (row_add row step)) ;;
  proposed_pt <- lift (reshape_row trial_matrix dims) ;;
  initial_pt <- lift (reshape_row (initial_matrix l) dims) ;;
  p_proposed <- lift (pfunc proposed_pt alpha) ;;
  p_initial <- lift (pfunc initial_pt alpha) ;;
  p <- lift (truediv p_proposed p_initial) ;;
  v <- np_random_rand ;;
  l <- (if PyFloat.ltb v p
        then ret (mkLocals trial_matrix (reject_ratio l) (test l) (samples l))
        else
          d <- lift (truediv PyFloat.one (of_nat iter)) ;;
          ret (mkLocals (initial_matrix l) (PyFloat.add (reject_ratio l) d)
                 (test l) (samples l))) ;;
  if (equi_threshold <? Z.of_nat i)%Z then
    if ((Z.of_nat i - therm) mod therm =? 0)%Z then
      pt <- lift (reshape_row (initial_matrix l) dims) ;;
      x3 <- unchecked_read pt 3 ;;
      ret (mkLocals (initial_matrix l) (reject_ratio l)
             (test l ++ [x3]) (samples l ++ [pt]))
    else ret l
  else ret l.

Definition metropolis_hastings (pfunc : func) (iter : nat) (alpha : float)
    (dims : nat) : MC (list point * float * list float) :=
  let zeros := repeat (repeat PyFloat.zero 3) (int_dims_3 dims) in
  initial_matrix <-
    for_each (seq 0 (int_dims_3 dims))
      (fun m i => u <- np_random_rand3 ;; lift (set_index m i (spread u)))
      zeros ;;
  l <- for_each (seq 0 iter) (mh_step pfunc iter alpha dims)
         (mkLocals initial_matrix PyFloat.zero [] []) ;;
  ret (samples l, reject_ratio l, test l).

(** The local variables of the loop over walkers; [rejects] and [p] are
    unbound before the first walker. *)
Record walk_locals : Type := mkWalk {
  vals : list float;
  w_test : list float;
  rejects : option float;
  p : option (list float)
}.

(** [for array in mc_samples[therm:]] *)
Fixpoint q_loop (qfunc : func) (alpha : float) (arrays : list point)
    (sums : float) (test : list float) : result (float * list float) :=
  match arrays with
  | [] => Ok (sums, test)
  | array :: rest =>
      rbind (qfunc array alpha) (fun q1 =>
      rbind (qfunc array alpha) (fun q2 =>
      q_loop qfunc alpha rest (PyFloat.add sums q1) (test ++ [q2])))
  end.

(** One turn of [for i in range(walkers)]. *)
Definition walker (pfunc qfunc : func) (sample_iter : nat) (alpha : float)
    (dims : nat) (l : walk_locals) (i : nat) : MC walk_locals :=
  let therm := 0 in
  ' (mc_samples, rejects, p) <- metropolis_hastings pfunc sample_iter alpha dims ;;
  ' (sums, test) <- lift (q_loop qfunc alpha (skipn therm mc_samples)
                            PyFloat.zero (w_test l)) ;;
  v <- lift (truediv sums (of_nat (sample_iter - therm))) ;;
  vals <- lift (set_index (vals l) i v) ;;
  ret (mkWalk vals test (Some rejects) (Some p)).

Definition bound {A} (x : option A) : result A :=
  match x with
  | Some a => Ok a
  | None => Raise UnboundLocalError
  end.

Definition integrator_mcmc (pfunc qfunc : func) (sample_iter walkers : nat)
    (alpha : float) (dims : nat)
    : MC (float * float * float * list float * list float) :=
  let zeros := repeat PyFloat.zero walkers in
  l <- for_each (seq 0 walkers) (walker pfunc qfunc sample_iter alpha dims)
         (mkWalk zeros [] None None) ;;
  let vals_squared := np_sum (map square (vals l)) in
  s_avg <- lift (truediv (np_sum (vals l)) (of_nat walkers)) ;;
  let vals_avg := s_avg in
  m2 <- lift (truediv vals_squared (of_nat walkers)) ;;
  let variance := PyFloat.sub m2 (square vals_avg) in
  v_w <- lift (truediv variance (of_nat walkers)) ;;
  let std_error := PyFloat.sqrt v_w in
  rejects <- lift (bound (rejects l)) ;;
  print (Print_cycle vals_avg std_error rejects alpha) ;;
  p <- lift (bound (p l)) ;;
  ret (vals_avg, std_error, rejects, w_test l, p).

End Program.
End optipack.

(* ================================================================== *)
(** ** Observations on a world *)

Definition is_print (e : event) : bool :=
  match e with
  | Print_header | Print_result _ _ _ | Print_overall _ => true
  | _ => false
  end.

(** What was printed, in order. *)
Definition stdout (w : world) : list event := filter is_print w.

Definition is_result (e : event) : bool :=
  match e with
  | Print_result _ _ _ => true
  | _ => false
  end.

Definition is_overall (e : event) : bool :=
  match e with
  | Print_overall _ => true
  | _ => false
  end.

(** The integration domains [(a, b)] of the calls to [quad], in order. *)
Fixpoint domains (w : world) : list (float * float) :=
  match w with
  | [] => []
  | Call_quad _ a b _ :: w' => (a, b) :: domains w'
  | _ :: w' => domains w'
  end.

(** The expressions [simplify] was applied to, in order. *)
Fixpoint simplified (w : world) : list expr :=
  match w with
  | [] => []
  | Call_simplify e :: w' => e :: simplified w'
  | _ :: w' => simplified w'
  end.

(** The expressions that were lambdified, in order. *)
Fixpoint lambdified (w : world) : list expr :=
  match w with
  | [] => []
  | Call_lambdify _ e :: w' => e :: lambdified w'
  | _ :: w' => lambdified w'
  end.

(** The line printed for a candidate. *)
Definition line_of_result (psi : expr) (r : float * float) : event :=
  Print_result psi (fst r) (snd r).

(* ================================================================== *)
(** ** A small backend, to run the programs on concrete inputs *)

Module Sample.

(** x ** n for a natural number n. *)
Fixpoint power (x : float) (n : nat) : float :=
  match n with
  | O => PyFloat.one
  | S n' => PyFloat.mul x (power x n')
  end.

(** Numeric evaluation of an expression in (r, alpha), for polynomial
    and rational expressions. *)
Fixpoint feval (e : expr) (r a : float) : result float :=
  match e with
  | BaseScalar _ _ => Ok r
  | Symbol _ => Ok a
  | Integer z => Ok (PyFloat.of_Z z)
  | Float f => Ok f
  | Add x y =>
      rbind (feval x r a) (fun u =>
      rbind (feval y r a) (fun v => Ok (PyFloat.add u v)))
  | Mul x y =>
      rbind (feval x r a) (fun u =>
      rbind (feval y r a) (fun v => Ok (PyFloat.mul u v)))
  | Pow b (Integer z) =>
      rbind (feval b r a) (fun u =>
        if (0 <=? z)%Z then Ok (power u (Z.to_nat z))
        else Ok (PyFloat.div PyFloat.one (power u (Z.to_nat (- z)))))
  | conjugate x => feval x r a
  | _ => Raise (LibraryError "unsupported expression")
  end.

(** The Laplacian of a constant is 0; other fields are left unevaluated. *)
Definition sample_doit (e : expr) : expr :=
  match e with
  | Function _ (Function _ (Integer _)) => Integer 0
  | Function _ (Function _ (Float _)) => Integer 0
  | _ => e
  end.

Definition sample_parse_expr (line : string) : result expr :=
  if String.eqb line "0" then Ok (Integer 0)
  else if String.eqb line "1" then Ok (Integer 1)
  else if String.eqb line "2" then Ok (Integer 2)
  else if String.eqb line "r" then Ok (Symbol "r")
  else Raise (LibraryError "SyntaxError").

(** [lines] is the content of every file. Integration is the rectangle
    rule with one node, minimization evaluates the initial guess only. *)
Definition backend (lines : list string) : Backend := {|
  vector := expr;
  Del_call := fun f => Function "Gradient" f;
  Del_dot := fun v => Function "Divergence" v;
  doit := sample_doit;
  simplify := fun e => Ok e;
  lambdify := fun _ e _ => Ok (feval e);
  quad := fun f a b p =>
            rbind (f b p) (fun y => Ok (PyFloat.mul (PyFloat.sub b a) y, PyFloat.zero));
  fmin := fun func x0 => rbind (func x0) (fun y => Ok (x0, y));
  parse_expr := sample_parse_expr;
  open_ := fun _ => Ok lines
|}.

(** A generator that always draws 0.5 and always picks electron 0, with
    0. in the memory after every array. *)
Definition half : float := PyFloat.div PyFloat.one (PyFloat.of_Z 2).

Definition random : Random := {|
  rng := nat;
  rand := fun g => (half, S g);
  randint := fun _ _ g => (Ok O, S g);
  stray := fun _ => PyFloat.zero
|}.

(** The constant density and the constant observable 1. *)
Definition unit_func : optipack.func := fun _ _ => Ok PyFloat.one.

(** What the pipeline returns with this backend on the constant trial
    functions 1 and 2: the initial guess and the energy -0.001. *)
Definition constant_result : float * float :=
  (PyFloat.lit_0_1, S754_finite true 4611686018427388 (-62)).

(** The subnormal float 2^-1060. *)
Definition small : float := S754_finite false 16384 (-1074).

End Sample.

(* ================================================================== *)
(** ** Statements of the specification that are compared with the code *)

(** A computation whose value does not depend on the world it starts in
    and which only appends to that world. *)
Definition appends {A} (c : M A) : Prop :=
  forall w, c w = (value c [], w ++ after c []).

Section Statements.

Context {B : Backend}.
Import hydr_var.

(** Both integrals run from 0 to [endpt], whatever [stpt] is. *)
Definition same_domain_from_0 (expectation_lamb norm_lamb : callable)
    (a stpt endpt : float) : Prop :=
  domains (after (expectation_intgrl expectation_lamb a stpt endpt) [])
    = [(PyFloat.zero, endpt)] /\
  domains (after (norm_intgrl norm_lamb a stpt endpt) [])
    = [(PyFloat.zero, endpt)].

(** Numerically indistinguishable from zero: zero, or below every normal
    number. *)
Definition near_zero (x : float) : bool :=
  match x with
  | S754_zero _ => true
  | S754_finite _ m e => (Z.pos (digits2_pos m) + e <? -1021)%Z
  | _ => false
  end.

(** [norm_intgrl] raises on a near-zero integral, and returns only for a
    strictly positive finite one. *)
Definition division_guard (norm_lamb : callable) (a stpt endpt : float) : Prop :=
  forall integral err,
    quad norm_lamb stpt endpt a = Ok (integral, err) ->
    (near_zero integral = true ->
       value (norm_intgrl norm_lamb a stpt endpt) [] = Raise ZeroDivisionError) /\
    (forall n, value (norm_intgrl norm_lamb a stpt endpt) [] = Ok n ->
       PyFloat.is_pos_finite integral = true).

(** Both integrands are simplified, and both simplified integrands are
    multiplied by the Jacobian before they are lambdified. *)
Definition both_simplified (psi : expr) : Prop :=
  simplified (after (energy psi) [])
    = [Mul (conjugate psi) (H psi); Mul (conjugate psi) psi] /\
  exists expectation norm,
    simplify (Mul (conjugate psi) (H psi)) = Ok expectation /\
    simplify (Mul (conjugate psi) psi) = Ok norm /\
    lambdified (after (energy psi) [])
      = [Mul expectation jacobian; Mul norm jacobian].

(** The line parses. *)
Definition parses (line : string) (x : expr) : Prop := parse_expr line = Ok x.

(** The pipeline succeeds on [psi] with the result [r]. *)
Definition succeeds (psi : expr) (r : float * float) : Prop :=
  value (energy psi) [] = Ok r.

(** What the run of one candidate with result [snd pr] adds to the world:
    the calls of its pipeline, then the line with its result. *)
Definition candidate_trace (pr : expr * (float * float)) : world :=
  after (energy (fst pr)) [] ++ [line_of_result (fst pr) (snd pr)].

(** What is done before the first candidate. *)
Definition prologue (lines : list string) : world :=
  [Print_header; Call_open default_txtdoc] ++ map Call_parse_expr lines.

(** When the run raises, nothing was reported: no result of a candidate
    and no overall minimum. *)
Definition nothing_reported_on_failure : Prop :=
  forall e, value script [] = Raise e ->
    filter is_result (after script []) = [] /\
    filter is_overall (after script []) = [].

End Statements.

(** Python values, to compare the components of a returned tuple with
    lists of any depth. *)
Inductive pyval : Type :=
| VFloat (x : float)
| VList (l : list pyval).

Definition of_floats (l : list float) : pyval := VList (map VFloat l).
Definition of_points (l : list optipack.point) : pyval := VList (map of_floats l).

Section MonteCarloStatements.

Context {G : Random}.
Import optipack.

(** What one run of the sampler returns. *)
Definition run : Type := (list point * float * list float)%type.
Definition run_samples (r : run) : list point := fst (fst r).
Definition run_rejects (r : run) : float := snd (fst r).
Definition run_test (r : run) : list float := snd r.

(** The successive runs of the sampler made for [walkers] walkers. *)
Fixpoint walks (pfunc : func) (sample_iter : nat) (alpha : float) (dims : nat)
    (walkers : nat) (st : state) : list run :=
  match walkers with
  | O => []
  | S n =>
      match metropolis_hastings pfunc sample_iter alpha dims st with
      | (inr r, st') => r :: walks pfunc sample_iter alpha dims n st'
      | (inl _, _) => []
      end
  end.

(** [x] is the entry of index 3 of the point [pt]. *)
Definition fourth (pt : point) (x : float) : Prop := nth_error pt 3 = Some x.

(** [x] is what reading index 3 of the point [pt] gave: the entry of
    index 3 when the point has one. *)
Definition read_fourth (pt : point) (x : float) : Prop :=
  forall y, nth_error pt 3 = Some y -> x = y.

(** The observable at each point of a list. *)
Fixpoint observe (qfunc : func) (alpha : float) (pts : list point)
    : result (list float) :=
  match pts with
  | [] => Ok []
  | x :: rest =>
      rbind (qfunc x alpha) (fun q =>
      rbind (observe qfunc alpha rest) (fun qs => Ok (q :: qs)))
  end.

(** The sum of a list divided by the number of its elements. *)
Definition arithmetic_average (xs : list float) : result float :=
  truediv (np_sum xs) (of_nat (List.length xs)).

Fixpoint walker_averages (qfunc : func) (alpha : float) (runs : list run)
    : result (list float) :=
  match runs with
  | [] => Ok []
  | r :: rest =>
      rbind (observe qfunc alpha (run_samples r)) (fun qs =>
      rbind (arithmetic_average qs) (fun avg =>
      rbind (walker_averages qfunc alpha rest) (fun avgs => Ok (avg :: avgs))))
  end.

(** The mean over walkers of the per-walker arithmetic averages. *)
Definition mean_of_averages (pfunc qfunc : func) (sample_iter walkers : nat)
    (alpha : float) (dims : nat) (st : state) : result float :=
  rbind (walker_averages qfunc alpha (walks pfunc sample_iter alpha dims walkers st))
        arithmetic_average.

Definition components (r : float * float * float * list float * list float)
    : list pyval :=
  match r with
  | (vals_avg, std_error, rejects, test, p) =>
      [VFloat vals_avg; VFloat std_error; VFloat rejects; of_floats test; of_floats p]
  end.

Definition first_component (r : float * float * float * list float * list float)
    : float :=
  match r with (vals_avg, _, _, _, _) => vals_avg end.

(** The integrator returns the mean of the per-walker arithmetic averages
    first, and the sampled points among the other components. *)
Definition returns_mean_and_samples (pfunc qfunc : func)
    (sample_iter walkers : nat) (alpha : float) (dims : nat) (st : state) : Prop :=
  forall r st',
    integrator_mcmc pfunc qfunc sample_iter walkers alpha dims st = (Ok r, st') ->
    mean_of_averages pfunc qfunc sample_iter walkers alpha dims st
      = Ok (first_component r) /\
    In (of_points (flat_map run_samples (walks pfunc sample_iter alpha dims walkers st)))
       (components r).

End MonteCarloStatements.

(* ================================================================== *)
(** ** Further notions used to describe the programs *)

(** The plain symbol [name] occurs in the expression. *)
Fixpoint mentions (name : string) (e : expr) : bool :=
  match e with
  | Symbol n => String.eqb n name
  | BaseScalar _ _ | Integer _ | Float _ => false
  | Add a b | Mul a b | Pow a b => mentions name a || mentions name b
  | conjugate a | exp a | Function _ a => mentions name a
  end.

(** The valuation that gives the symbol [name] the value of a base
    scalar. *)
Definition rename_symbol (name : string) (sys : CoordSys3D) (i : nat)
    (v : valuation) : valuation :=
  mkValuation (val_base v)
    (fun n => if String.eqb n name then val_base v sys i else val_symbol v n)
    (val_function v).

(** The initial guesses the minimizer was started from, in order. *)
Fixpoint minimized (w : world) : list float :=
  match w with
  | [] => []
  | Call_fmin x0 :: w' => x0 :: minimized w'
  | _ :: w' => minimized w'
  end.

(** The lines given to the parser, in order. *)
Fixpoint parsed (w : world) : list string :=
  match w with
  | [] => []
  | Call_parse_expr line :: w' => line :: parsed w'
  | _ :: w' => parsed w'
  end.

(** A Monte Carlo computation that leaves the console as it is, whether
    it returns or raises. *)
Definition silent {G : Random} {A} (c : optipack.MC A) : Prop :=
  forall st, snd (after c st) = snd st.

(** A matrix of rows of three entries. *)
Definition three_columns (m : optipack.matrix) : Prop :=
  Forall (fun row => List.length row = 3) m.

(* ================================================================== *)
(** ** Facts about the state monad *)

Lemma bind_run {S A B} (c : ST S A) (k : A -> ST S B) (s : S) :
  bind c k s =
  match c s with
  | (inl e, s') => (inl e, s')
  | (inr a, s') => k a s'
  end.
Proof. reflexivity. Qed.

Lemma bind_ok {S A B} (c : ST S A) (k : A -> ST S B) (s s' : S) (a : A) :
  c s = (Ok a, s') -> bind c k s = k a s'.
Proof. intros Hc. rewrite bind_run, Hc. reflexivity. Qed.

Lemma bind_raise {S A B} (c : ST S A) (k : A -> ST S B) (s s' : S) (e : exn) :
  c s = (Raise e, s') -> bind c k s = (Raise e, s').
Proof. intros Hc. rewrite bind_run, Hc. reflexivity. Qed.

Arguments bind_ok {S A B} c k {s s' a} _.
Arguments bind_raise {S A B} c k {s s' e} _.

Lemma appends_ret {A} (a : A) : appends (ret a).
Proof. intros w. unfold ret, value, after. simpl. now rewrite app_nil_r. Qed.

Lemma appends_lift {A} (r : result A) : appends (lift r).
Proof. intros w. unfold lift, value, after. simpl. now rewrite app_nil_r. Qed.

Lemma appends_emit (e : event) : appends (emit e).
Proof. intros w. reflexivity. Qed.

Lemma appends_bind {A C} (c : M A) (k : A -> M C) :
  appends c -> (forall a, appends (k a)) -> appends (bind c k).
Proof.
  intros Hc Hk w. unfold value, after. rewrite !bind_run.
  rewrite (Hc w). unfold value, after.
  destruct (c []) as [[e | a] w1]; simpl.
  - reflexivity.
  - rewrite (Hk a (w ++ w1)), (Hk a w1). unfold value, after. simpl.
    now rewrite app_assoc.
Qed.

Lemma appends_for_each {A T} (body : T -> A -> M T) (xs : list A) :
  (forall acc x, appends (body acc x)) ->
  forall acc, appends (for_each xs body acc).
Proof.
  intros Hb. induction xs as [| x xs IH]; intros acc; simpl.
  - apply appends_ret.
  - apply appends_bind; [apply Hb | intros a; apply IH].
Qed.

(** The value of a computation that appends is the same in every world. *)
Lemma appends_value {A} (c : M A) (w w' : world) :
  appends c -> value c w = value c w'.
Proof.
  intros Hc. unfold value. rewrite (Hc w), (Hc w'). reflexivity.
Qed.

Lemma appends_after {A} (c : M A) (w : world) :
  appends c -> after c w = w ++ after c [].
Proof. intros Hc. unfold after. rewrite (Hc w). reflexivity. Qed.

(* ================================================================== *)
(** ** hydr_var.py: the integrals *)

Section Integrals.

Context {B : Backend}.
Import hydr_var.

Lemma call_quad_run (f : callable) (a b p : float) (w : world) :
  call_quad f a b p w = (quad f a b p, w ++ [Call_quad f a b p]).
Proof. reflexivity. Qed.

Lemma expectation_intgrl_run (expectation_lamb : callable) (a stpt endpt : float)
    (w : world) :
  expectation_intgrl expectation_lamb a stpt endpt w =
  (rbind (quad expectation_lamb PyFloat.zero endpt a) (fun r => Ok (fst r)),
   w ++ [Call_quad expectation_lamb PyFloat.zero endpt a]).
Proof.
  unfold expectation_intgrl. rewrite bind_run, call_quad_run.
  destruct (quad expectation_lamb PyFloat.zero endpt a); reflexivity.
Qed.

Lemma norm_intgrl_run (norm_lamb : callable) (a stpt endpt : float) (w : world) :
  norm_intgrl norm_lamb a stpt endpt w =
  (rbind (quad norm_lamb stpt endpt a) (fun r => truediv PyFloat.one (fst r)),
   w ++ [Call_quad norm_lamb stpt endpt a]).
Proof.
  unfold norm_intgrl. rewrite bind_run, call_quad_run.
  destruct (quad norm_lamb stpt endpt a) as [e | r]; [reflexivity |].
  rewrite bind_run. unfold lift, rbind.
  destruct (truediv PyFloat.one (fst r)); reflexivity.
Qed.

Lemma appends_expectation_intgrl (f : callable) (a stpt endpt : float) :
  appends (expectation_intgrl f a stpt endpt).
Proof.
  intros w. unfold value, after. now rewrite !expectation_intgrl_run.
Qed.

Lemma appends_norm_intgrl (f : callable) (a stpt endpt : float) :
  appends (norm_intgrl f a stpt endpt).
Proof.
  intros w. unfold value, after. now rewrite !norm_intgrl_run.
Qed.

Lemma appends_var_intgrl (a : float) (f g : callable) (stpt endpt : float) :
  appends (var_intgrl a f g stpt endpt).
Proof.
  unfold var_intgrl.
  apply appends_bind; [apply appends_norm_intgrl | intros n].
  apply appends_bind; [apply appends_expectation_intgrl | intros e].
  apply appends_ret.
Qed.

(** C2. For every parameter value, every pair of callables, all bounds
    and every world, the value of [var_intgrl] is the float product of
    the value of [norm_intgrl] and the value of [expectation_intgrl],
    where the value of [norm_intgrl] is the numeric inverse 1/integral
    (N^2) of the normalization integral that [quad] returns, and the
    value of [expectation_intgrl] is the expectation integral that [quad]
    returns; an exception of either is the exception of [var_intgrl],
    that of the normalization first. *)
Theorem var_intgrl_is_product (a : float) (expectation_lamb norm_lamb : callable)
    (stpt endpt : float) (w : world) :
  value (var_intgrl a expectation_lamb norm_lamb stpt endpt) w =
    rbind (value (norm_intgrl norm_lamb a stpt endpt) w) (fun n =>
    rbind (value (expectation_intgrl expectation_lamb a stpt endpt) w) (fun e =>
    Ok (PyFloat.mul n e)))
  /\
  value (norm_intgrl norm_lamb a stpt endpt) w =
    rbind (quad norm_lamb stpt endpt a) (fun r => truediv PyFloat.one (fst r))
  /\
  value (expectation_intgrl expectation_lamb a stpt endpt) w =
    rbind (quad expectation_lamb PyFloat.zero endpt a) (fun r => Ok (fst r)).
Proof.
  split; [| split].
  - unfold value, var_intgrl. rewrite bind_run, norm_intgrl_run.
    rewrite expectation_intgrl_run. simpl fst.
    destruct (rbind (quad norm_lamb stpt endpt a) _) as [ex | n]; [reflexivity |].
    rewrite bind_run, expectation_intgrl_run. simpl.
    destruct (rbind (quad expectation_lamb PyFloat.zero endpt a) _); reflexivity.
  - unfold value. rewrite norm_intgrl_run. reflexivity.
  - unfold value. rewrite expectation_intgrl_run. reflexivity.
Qed.

End Integrals.

(* ================================================================== *)
(** ** hydr_var.py: the Hamiltonian *)

Section Hamiltonian.

Context {B : Backend}.
Import hydr_var.

(** The Python quotient [- 1 / 2] is the real number -1/2. *)
Lemma minus_half_to_R :
  PyFloat.to_R (PyFloat.div (PyFloat.of_Z (-1)) (PyFloat.of_Z 2)) = (- (1 / 2))%R.
Proof.
  replace (PyFloat.div (PyFloat.of_Z (-1)) (PyFloat.of_Z 2))
    with (S754_finite true 4503599627370496 (-53)) by (vm_compute; reflexivity).
  unfold PyFloat.to_R, cond_Zopp, powerRZ.
  rewrite pow_IZR.
  replace (2 ^ Z.of_nat (Pos.to_nat 53))%Z with 9007199254740992%Z
    by (vm_compute; reflexivity).
  simpl Z.opp. field.
Qed.

Lemma powerRZ_minus_1 (x : Rdefinitions.R) : powerRZ x (-1) = (/ x)%R.
Proof. unfold powerRZ. simpl. now rewrite Rmult_1_r. Qed.

(** C1. For every trial function [psi] and at every real point, the
    expression returned by [H] has the value
    -(1/2) * Laplacian(psi) - (1/r) * psi, where the Laplacian is
    [del2 psi], the evaluated divergence of the gradient taken by the
    vector operator in the coordinate system [R], and [R] is spherical. *)
Theorem H_is_hamiltonian (v : valuation) (psi : expr) :
  denote v (H psi)
    = (- (1 / 2) * denote v (del2 psi) - (1 / val_base v R 0) * denote v psi)%R
  /\ del2 psi = doit (Del_dot (Del_call psi))
  /\ transformation R = "spherical"%string.
Proof.
  split; [| split; reflexivity].
  unfold H, sym_sub, sym_mul, sym_rtruediv, R_r.
  cbn [denote]. rewrite minus_half_to_R, powerRZ_minus_1.
  unfold Rdiv. ring.
Qed.

End Hamiltonian.

(* ================================================================== *)
(** ** hydr_var.py: integration domains and the division *)

Section Domains.

Context {B : Backend}.
Import hydr_var.

(** C4, as amended. For every parameter value and all bounds, the
    normalization integral is taken from [stpt] to [endpt]; with the
    default [stpt = 0] the expectation integral and the normalization
    integral are taken over the same domain, from 0 to [endpt]. *)
Theorem integration_domains (expectation_lamb norm_lamb : callable)
    (a stpt endpt : float) :
  domains (after (norm_intgrl norm_lamb a stpt endpt) []) = [(stpt, endpt)] /\
  domains (after (norm_intgrl norm_lamb a default_stpt endpt) [])
    = [(PyFloat.zero, endpt)] /\
  domains (after (expectation_intgrl expectation_lamb a default_stpt endpt) [])
    = [(PyFloat.zero, endpt)].
Proof.
  unfold after. rewrite !norm_intgrl_run, expectation_intgrl_run.
  repeat split.
Qed.

(** C5, as amended. For every callable, parameter value and bounds,
    [norm_intgrl] raises the exception of [quad] if there is one, raises
    [ZeroDivisionError] exactly when the integral is a zero, and for every
    other integral (tiny, negative, infinite or NaN) returns the float
    quotient of 1 by it. *)
Theorem norm_intgrl_division (norm_lamb : callable) (a stpt endpt : float)
    (w : world) :
  value (norm_intgrl norm_lamb a stpt endpt) w =
  rbind (quad norm_lamb stpt endpt a) (fun r =>
    if PyFloat.is_zero (fst r) then Raise ZeroDivisionError
    else Ok (PyFloat.div PyFloat.one (fst r))).
Proof.
  unfold value. rewrite norm_intgrl_run. reflexivity.
Qed.

End Domains.

(** C4, refuted as stated: from [stpt = 1] to [endpt = 1000] the
    normalization integral is taken from 1, not from 0. *)
Lemma same_domain_from_0_fails :
  ~ same_domain_from_0 (B := Sample.backend [])
      (fun _ _ => Ok PyFloat.one) (fun _ _ => Ok PyFloat.one)
      PyFloat.one PyFloat.one (PyFloat.of_Z 1000).
Proof.
  intros [_ Hn]. unfold after in Hn. rewrite norm_intgrl_run in Hn.
  vm_compute in Hn. discriminate Hn.
Qed.

(** C5, refuted as stated: the constant integrand 2^-1060 has the
    integral 1000 * 2^-1060 over [0, 1000], below every normal number, and
    [norm_intgrl] returns +infinity and raises nothing; the constant
    integrand -1 has the integral -1000, and [norm_intgrl] returns the
    negative number 1/-1000. *)
Lemma division_guard_fails :
  ~ division_guard (B := Sample.backend [])
      (fun _ _ => Ok Sample.small) PyFloat.one PyFloat.zero (PyFloat.of_Z 1000)
  /\
  ~ division_guard (B := Sample.backend [])
      (fun _ _ => Ok (PyFloat.of_Z (-1))) PyFloat.one PyFloat.zero
      (PyFloat.of_Z 1000).
Proof.
  split; intros Hg.
  - destruct (Hg (PyFloat.mul (PyFloat.of_Z 1000) Sample.small) PyFloat.zero)
      as [Hraise _]; [vm_compute; reflexivity |].
    assert (Hn : near_zero (PyFloat.mul (PyFloat.of_Z 1000) Sample.small) = true)
      by (vm_compute; reflexivity).
    specialize (Hraise Hn). vm_compute in Hraise. discriminate Hraise.
  - destruct (Hg (PyFloat.of_Z (-1000)) PyFloat.zero) as [_ Hpos];
      [vm_compute; reflexivity |].
    assert (Hv : PyFloat.is_pos_finite (PyFloat.of_Z (-1000)) = true).
    { apply (Hpos (PyFloat.div PyFloat.one (PyFloat.of_Z (-1000)))).
      vm_compute. reflexivity. }
    vm_compute in Hv. discriminate Hv.
Qed.

(* ================================================================== *)
(** ** hydr_var.py: the pipeline of one trial function *)

Section Pipeline.

Context {B : Backend}.
Import hydr_var.

Lemma appends_call_simplify (e : expr) : appends (call_simplify e).
Proof.
  unfold call_simplify.
  apply appends_bind; [apply appends_emit | intros _; apply appends_lift].
Qed.

Lemma appends_call_lambdify (args : list expr) (e : expr) :
  appends (call_lambdify args e).
Proof.
  unfold call_lambdify.
  apply appends_bind; [apply appends_emit | intros _; apply appends_lift].
Qed.

(** The minimizer sees the same objective in every world. *)
Lemma appends_call_fmin (func : float -> M float) (x0 : float) :
  (forall a, appends (func a)) -> appends (call_fmin func x0).
Proof.
  intros Hf w. unfold call_fmin, value, after. simpl. f_equal. f_equal.
  apply functional_extensionality. intros a.
  apply (appends_value w [] (Hf a)).
Qed.

Lemma appends_energy (psi : expr) : appends (energy psi).
Proof.
  unfold energy.
  apply appends_bind; [apply appends_call_simplify | intros expectation].
  apply appends_bind; [apply appends_call_lambdify | intros expectation_lamb].
  apply appends_bind; [apply appends_call_lambdify | intros norm_lamb].
  apply appends_call_fmin. intros a. apply appends_var_intgrl.
Qed.

Lemma call_simplify_run (e : expr) (w : world) :
  call_simplify e w = (simplify e, w ++ [Call_simplify e]).
Proof. reflexivity. Qed.

Lemma call_lambdify_run (args : list expr) (e : expr) (w : world) :
  call_lambdify args e w = (lambdify args e "scipy", w ++ [Call_lambdify args e]).
Proof. reflexivity. Qed.

(** Every run of the pipeline starts with the one call to [simplify]. *)
Lemma energy_simplified (psi : expr) :
  simplified (after (energy psi) []) = [Mul (conjugate psi) (H psi)].
Proof.
  unfold after, energy, sym_mul. rewrite bind_run, call_simplify_run.
  destruct (simplify _) as [e | expectation]; [reflexivity |].
  rewrite bind_run, call_lambdify_run.
  destruct (lambdify _ _ _) as [e | expectation_lamb]; [reflexivity |].
  rewrite bind_run, call_lambdify_run.
  destruct (lambdify _ _ _) as [e | norm_lamb]; reflexivity.
Qed.

(** The pipeline prints nothing. *)
Lemma energy_stdout (psi : expr) : stdout (after (energy psi) []) = [].
Proof.
  unfold after, energy, sym_mul. rewrite bind_run, call_simplify_run.
  destruct (simplify _) as [e | expectation]; [reflexivity |].
  rewrite bind_run, call_lambdify_run.
  destruct (lambdify _ _ _) as [e | expectation_lamb]; [reflexivity |].
  rewrite bind_run, call_lambdify_run.
  destruct (lambdify _ _ _) as [e | norm_lamb]; reflexivity.
Qed.

(** C6, as amended. For every trial function [psi], simplification is
    applied to the expectation integrand conjugate(psi) * H(psi) only;
    the normalization integrand conjugate(psi) * psi is used as it is;
    both are multiplied by the Jacobian r^2 and then lambdified, and the
    minimizer is started after that. *)
Theorem energy_integrands (psi expectation : expr)
    (expectation_lamb norm_lamb : callable) (w : world) :
  simplify (Mul (conjugate psi) (H psi)) = Ok expectation ->
  lambdify [R_r; alpha] (Mul expectation jacobian) "scipy" = Ok expectation_lamb ->
  lambdify [R_r; alpha] (Mul (Mul (conjugate psi) psi) jacobian) "scipy"
    = Ok norm_lamb ->
  after (energy psi) w =
    w ++ [Call_simplify (Mul (conjugate psi) (H psi));
          Call_lambdify [R_r; alpha] (Mul expectation jacobian);
          Call_lambdify [R_r; alpha] (Mul (Mul (conjugate psi) psi) jacobian);
          Call_fmin PyFloat.lit_0_1]
  /\ simplified (after (energy psi) []) = [Mul (conjugate psi) (H psi)]
  /\ lambdified (after (energy psi) [])
       = [Mul expectation jacobian; Mul (Mul (conjugate psi) psi) jacobian]
  /\ jacobian = Pow R_r (Integer 2).
Proof.
  intros Hs He Hn.
  assert (Hrun : forall w0, after (energy psi) w0 =
    w0 ++ [Call_simplify (Mul (conjugate psi) (H psi));
           Call_lambdify [R_r; alpha] (Mul expectation jacobian);
           Call_lambdify [R_r; alpha] (Mul (Mul (conjugate psi) psi) jacobian);
           Call_fmin PyFloat.lit_0_1]).
  { intros w0. unfold after, energy, sym_mul.
    rewrite bind_run, call_simplify_run, Hs. unfold Ok at 1.
    rewrite bind_run, call_lambdify_run, He. unfold Ok at 1.
    rewrite bind_run, call_lambdify_run, Hn. unfold Ok at 1.
    unfold call_fmin. simpl snd. rewrite <- !app_assoc. reflexivity. }
  split; [apply Hrun |].
  split; [apply energy_simplified |].
  split; [rewrite (Hrun []); reflexivity | reflexivity].
Qed.

End Pipeline.

(** C6, refuted as stated: on the constant trial function 1 the only
    expression given to [simplify] is the expectation integrand. *)
Lemma both_simplified_fails :
  ~ both_simplified (B := Sample.backend []) (Integer 1).
Proof.
  intros [Hs _]. rewrite energy_simplified in Hs. discriminate Hs.
Qed.

Lemma energy_integrands_witness :
  lambdified (after (hydr_var.energy (B := Sample.backend []) (Integer 1)) [])
  = [Mul (Mul (conjugate (Integer 1)) (hydr_var.H (B := Sample.backend []) (Integer 1)))
         hydr_var.jacobian;
     Mul (Mul (conjugate (Integer 1)) (Integer 1)) hydr_var.jacobian].
Proof.
  refine (proj1 (proj2 (proj2
    (energy_integrands (B := Sample.backend []) (Integer 1)
       (expectation_lamb :=
          Sample.feval
            (Mul (Mul (conjugate (Integer 1))
                    (hydr_var.H (B := Sample.backend []) (Integer 1)))
               hydr_var.jacobian))
       (norm_lamb :=
          Sample.feval
            (Mul (Mul (conjugate (Integer 1)) (Integer 1)) hydr_var.jacobian))
       [] _ _ _)))); reflexivity.
Defined.

(* ================================================================== *)
(** ** The order of floats and Python's [min] *)

Lemma finite_compare_trans (m1 m2 m3 : positive) (e1 e2 e3 : Z) :
  match (e1 ?= e2)%Z with Eq => Pos.compare m1 m2 | c => c end = Lt ->
  match (e2 ?= e3)%Z with Eq => Pos.compare m2 m3 | c => c end = Lt ->
  match (e1 ?= e3)%Z with Eq => Pos.compare m1 m3 | c => c end = Lt.
Proof.
  destruct (Z.compare_spec e1 e2), (Z.compare_spec e2 e3), (Z.compare_spec e1 e3);
    intros H12 H23; try discriminate; try lia; try reflexivity; subst.
  exact (Pos.lt_trans _ _ _ H12 H23).
Qed.

Lemma CompOpp_Lt (c : comparison) : CompOpp c = Lt <-> c = Gt.
Proof. destruct c; simpl; split; congruence. Qed.

Lemma finite_compare_trans_opp (m1 m2 m3 : positive) (e1 e2 e3 : Z) :
  match (e1 ?= e2)%Z with
  | Eq => CompOpp (Pos.compare m1 m2) | Lt => Gt | Gt => Lt
  end = Lt ->
  match (e2 ?= e3)%Z with
  | Eq => CompOpp (Pos.compare m2 m3) | Lt => Gt | Gt => Lt
  end = Lt ->
  match (e1 ?= e3)%Z with
  | Eq => CompOpp (Pos.compare m1 m3) | Lt => Gt | Gt => Lt
  end = Lt.
Proof.
  destruct (Z.compare_spec e1 e2), (Z.compare_spec e2 e3), (Z.compare_spec e1 e3);
    intros H12 H23; try discriminate; try lia; try reflexivity; subst.
  apply CompOpp_Lt in H12, H23. apply CompOpp_Lt.
  apply Pos.compare_gt_iff in H12, H23. apply Pos.compare_gt_iff.
  exact (Pos.lt_trans _ _ _ H23 H12).
Qed.

Lemma Some_Lt_true (c : option comparison) :
  match c with Some Lt => true | _ => false end = true <-> c = Some Lt.
Proof. destruct c as [[ | | ] | ]; split; congruence. Qed.

Lemma ltb_trans (x y z : float) :
  PyFloat.ltb x y = true -> PyFloat.ltb y z = true -> PyFloat.ltb x z = true.
Proof.
  unfold PyFloat.ltb, SFltb. rewrite !Some_Lt_true.
  destruct x as [sx | sx | | sx mx ex], y as [sy | sy | | sy my ey],
    z as [sz | sz | | sz mz ez]; simpl; try discriminate;
    try (destruct sx); try (destruct sy); try (destruct sz); simpl;
    try discriminate; try reflexivity;
    change (PosDef.Pos.compare_cont Eq) with Pos.compare;
    intros H12 H23; injection H12 as H12; injection H23 as H23; f_equal.
  - now apply (finite_compare_trans_opp mx my mz ex ey ez).
  - now apply (finite_compare_trans mx my mz ex ey ez).
Qed.

Lemma ltb_irrefl (x : float) : PyFloat.ltb x x = false.
Proof.
  unfold PyFloat.ltb, SFltb.
  destruct x as [sx | sx | | sx mx ex]; simpl; try reflexivity;
    destruct sx; try reflexivity;
    rewrite Z.compare_refl; change (PosDef.Pos.compare_cont Eq) with Pos.compare;
    rewrite Pos.compare_refl; reflexivity.
Qed.

(** The running minimum is the start value or a later element strictly
    below it, and no later element is below it. *)
Lemma running_min (rest : list float) (x : float) :
  let m := fold_left (fun m y => if PyFloat.ltb y m then y else m) rest x in
  (m = x \/ In m rest) /\
  (m = x \/ PyFloat.ltb m x = true) /\
  (forall e, In e rest -> PyFloat.ltb e m = false).
Proof.
  revert x. induction rest as [| y rest IH]; intros x; simpl.
  - repeat split; auto. intros e [].
  - destruct (PyFloat.ltb y x) eqn:Hyx.
    + destruct (IH y) as (Hin & Hle & Hmin).
      remember (fold_left (fun m y => if PyFloat.ltb y m then y else m) rest y) as m.
      repeat split.
      * destruct Hin as [-> | Hin]; auto.
      * right. destruct Hle as [-> | Hle]; [exact Hyx |].
        exact (ltb_trans _ _ _ Hle Hyx).
      * intros e [<- | He]; [| auto].
        destruct Hle as [-> | Hle]; [apply ltb_irrefl |].
        destruct (PyFloat.ltb y m) eqn:Hym; [| reflexivity].
        pose proof (ltb_trans _ _ _ Hym Hle) as Hc.
        rewrite ltb_irrefl in Hc. discriminate Hc.
    + destruct (IH x) as (Hin & Hle & Hmin).
      remember (fold_left (fun m y => if PyFloat.ltb y m then y else m) rest x) as m.
      repeat split.
      * destruct Hin as [-> | Hin]; auto.
      * exact Hle.
      * intros e [<- | He]; [| auto].
        destruct Hle as [-> | Hle]; [exact Hyx |].
        destruct (PyFloat.ltb y m) eqn:Hym; [| reflexivity].
        pose proof (ltb_trans _ _ _ Hym Hle) as Hc.
        rewrite Hyx in Hc. discriminate Hc.
Qed.

(** On a non-empty list, [py_min] returns an element of the list that no
    element of the list is below. *)
Lemma py_min_minimum (l : list float) :
  l <> [] ->
  exists m, py_min l = Ok m /\ In m l /\
            forall e, In e l -> PyFloat.ltb e m = false.
Proof.
  destruct l as [| x rest]; [congruence | intros _].
  destruct (running_min rest x) as (Hin & Hle & Hmin).
  simpl. eexists. split; [reflexivity |]. split.
  - destruct Hin as [-> | Hin]; auto.
  - intros e [<- | He]; [| auto].
    destruct Hle as [-> | Hle]; [apply ltb_irrefl |].
    match goal with
    | |- PyFloat.ltb x ?m = false => destruct (PyFloat.ltb x m) eqn:Hem
    end; [| reflexivity].
    pose proof (ltb_trans _ _ _ Hem Hle) as Hc.
    rewrite ltb_irrefl in Hc. discriminate Hc.
Qed.

(* ================================================================== *)
(** ** hydr_var.py: the driver *)

Section Driver.

Context {B : Backend}.
Import hydr_var.

Lemma read_line_run (trialfuncs : list expr) (line : string) (x : expr)
    (w : world) :
  parses line x ->
  read_line trialfuncs line w =
  (Ok (trialfuncs ++ [subs "r" R_r x]), w ++ [Call_parse_expr line]).
Proof.
  intros Hx. unfold read_line.
  rewrite (bind_ok _ _ (a := x) (s' := w ++ [Call_parse_expr line])); [reflexivity |].
  unfold call_parse_expr. rewrite bind_run. unfold emit, lift.
  rewrite Hx. reflexivity.
Qed.

Lemma read_lines_run (lines : list string) (xs : list expr) :
  Forall2 parses lines xs ->
  forall (acc : list expr) (w : world),
    for_each lines read_line acc w =
    (Ok (acc ++ map (subs "r" R_r) xs), w ++ map Call_parse_expr lines).
Proof.
  induction 1 as [| line x lines xs Hx _ IH]; intros acc w; simpl.
  - unfold ret. now rewrite !app_nil_r.
  - rewrite (bind_ok _ _ (read_line_run acc w Hx)), IH, <- !app_assoc.
    reflexivity.
Qed.

Lemma readtrialfuncs_run (txtdoc : string) (lines : list string)
    (xs : list expr) (w : world) :
  open_ txtdoc = Ok lines ->
  Forall2 parses lines xs ->
  readtrialfuncs txtdoc w =
  (Ok (map (subs "r" R_r) xs),
   w ++ Call_open txtdoc :: map Call_parse_expr lines).
Proof.
  intros Ho Hp. unfold readtrialfuncs.
  rewrite (bind_ok _ _ (a := lines) (s' := w ++ [Call_open txtdoc])).
  - rewrite (read_lines_run Hp), <- app_assoc. reflexivity.
  - unfold call_open. rewrite bind_run. unfold emit, lift.
    rewrite Ho. reflexivity.
Qed.

(** One candidate: the pipeline, then the line with its result. *)
Lemma candidate_ok (energies : list float) (psi : expr) (r : float * float)
    (w : world) :
  succeeds psi r ->
  candidate energies psi w =
  (Ok (energies ++ [snd r]), w ++ candidate_trace (psi, r)).
Proof.
  intros Hr. unfold candidate.
  rewrite (bind_ok _ _ (a := r) (s' := w ++ after (energy psi) [])).
  - destruct r as [alpha_op energy_min].
    unfold candidate_trace, line_of_result, print. simpl.
    rewrite bind_run. unfold emit, ret. now rewrite <- app_assoc.
  - rewrite (appends_energy psi w). unfold succeeds in Hr. now rewrite Hr.
Qed.

Lemma candidate_raise (energies : list float) (psi : expr) (e : exn)
    (w : world) :
  value (energy psi) [] = Raise e ->
  candidate energies psi w = (Raise e, w ++ after (energy psi) []).
Proof.
  intros He. unfold candidate. apply bind_raise.
  rewrite (appends_energy psi w). now rewrite He.
Qed.

Lemma candidates_succeed (psis : list expr) (results : list (float * float)) :
  Forall2 succeeds psis results ->
  forall (energies : list float) (w : world),
    for_each psis candidate energies w =
    (Ok (energies ++ map snd results),
     w ++ flat_map candidate_trace (combine psis results)).
Proof.
  induction 1 as [| psi r psis results Hr _ IH]; intros energies w; simpl.
  - unfold ret. now rewrite !app_nil_r.
  - rewrite (bind_ok _ _ (candidate_ok energies w Hr)), IH, <- !app_assoc.
    reflexivity.
Qed.

Lemma candidates_fail (pre : list expr) (results : list (float * float))
    (psi : expr) (post : list expr) (e : exn) :
  Forall2 succeeds pre results ->
  value (energy psi) [] = Raise e ->
  forall (energies : list float) (w : world),
    for_each (pre ++ psi :: post) candidate energies w =
    (Raise e,
     w ++ flat_map candidate_trace (combine pre results) ++ after (energy psi) []).
Proof.
  intros Hpre Hpsi.
  induction Hpre as [| p r pre results Hr _ IH]; intros energies w; simpl.
  - apply bind_raise. apply candidate_raise. exact Hpsi.
  - rewrite (bind_ok _ _ (candidate_ok energies w Hr)), IH, <- !app_assoc.
    reflexivity.
Qed.

Lemma stdout_app (w1 w2 : world) : stdout (w1 ++ w2) = stdout w1 ++ stdout w2.
Proof. apply filter_app. Qed.

Lemma stdout_parse (lines : list string) : stdout (map Call_parse_expr lines) = [].
Proof. induction lines; simpl; auto. Qed.

Lemma stdout_candidates (l : list (expr * (float * float))) :
  stdout (flat_map candidate_trace l)
  = map (fun pr => line_of_result (fst pr) (snd pr)) l.
Proof.
  induction l as [| pr l IH]; simpl; [reflexivity |].
  rewrite stdout_app. unfold candidate_trace at 1.
  rewrite stdout_app, energy_stdout, IH. reflexivity.
Qed.

Lemma simplified_app (w1 w2 : world) :
  simplified (w1 ++ w2) = simplified w1 ++ simplified w2.
Proof.
  induction w1 as [| e w1 IH]; simpl; [reflexivity |].
  destruct e; simpl; rewrite ?IH; reflexivity.
Qed.

Lemma simplified_parse (lines : list string) :
  simplified (map Call_parse_expr lines) = [].
Proof. induction lines; simpl; auto. Qed.

Lemma simplified_candidates (l : list (expr * (float * float))) :
  simplified (flat_map candidate_trace l)
  = map (fun pr => Mul (conjugate (fst pr)) (H (fst pr))) l.
Proof.
  induction l as [| pr l IH]; simpl; [reflexivity |].
  rewrite simplified_app. unfold candidate_trace at 1.
  rewrite simplified_app, energy_simplified, IH. reflexivity.
Qed.

(** The run of [main] when every line parses and every pipeline succeeds. *)
Lemma main_run (lines : list string) (xs : list expr)
    (results : list (float * float)) (w : world) :
  open_ default_txtdoc = Ok lines ->
  Forall2 parses lines xs ->
  Forall2 succeeds (map (subs "r" R_r) xs) results ->
  main w =
  (py_min (map snd results),
   w ++ prologue lines
     ++ flat_map candidate_trace (combine (map (subs "r" R_r) xs) results)).
Proof.
  intros Ho Hp Hs. unfold main, print, prologue.
  rewrite (bind_ok _ _ (a := tt) (s' := w ++ [Print_header])) by reflexivity.
  rewrite (bind_ok _ _ (readtrialfuncs_run _ _ Ho Hp)).
  rewrite (bind_ok _ _ (candidates_succeed Hs _ _)).
  rewrite bind_run. unfold lift. simpl app at 1.
  rewrite <- !app_assoc. simpl app.
  destruct (py_min (map snd results)); reflexivity.
Qed.

(** The run of [main] when every line parses and the pipeline of one
    candidate raises after those before it succeeded. *)
Lemma main_run_failing (lines : list string) (xs : list expr)
    (pre : list expr) (results : list (float * float)) (psi : expr)
    (post : list expr) (e : exn) (w : world) :
  open_ default_txtdoc = Ok lines ->
  Forall2 parses lines xs ->
  map (subs "r" R_r) xs = pre ++ psi :: post ->
  Forall2 succeeds pre results ->
  value (energy psi) [] = Raise e ->
  main w =
  (Raise e,
   w ++ prologue lines ++ flat_map candidate_trace (combine pre results)
     ++ after (energy psi) []).
Proof.
  intros Ho Hp Hsplit Hs He. unfold main, print, prologue.
  rewrite (bind_ok _ _ (a := tt) (s' := w ++ [Print_header])) by reflexivity.
  rewrite (bind_ok _ _ (readtrialfuncs_run _ _ Ho Hp)), Hsplit.
  rewrite (bind_raise _ _ (candidates_fail psi post Hs He _ _)).
  rewrite <- !app_assoc. reflexivity.
Qed.

End Driver.

Section DriverClaims.

Context {B : Backend}.
Import hydr_var.

Lemma script_run (w : world) :
  script w =
  match main w with
  | (inl e, w') => (inl e, w')
  | (inr overall, w') => (Ok tt, w' ++ [Print_overall overall])
  end.
Proof.
  unfold script. rewrite bind_run. destruct (main w) as [[e | m] w']; reflexivity.
Qed.

Lemma map_fst_combine {X Y} (P : X -> Y -> Prop) (xs : list X) (ys : list Y) :
  Forall2 P xs ys -> map fst (combine xs ys) = xs.
Proof. induction 1; simpl; congruence. Qed.

Lemma map_snd_combine {X Y} (P : X -> Y -> Prop) (xs : list X) (ys : list Y) :
  Forall2 P xs ys -> map snd (combine xs ys) = ys.
Proof. induction 1; simpl; congruence. Qed.

Lemma overall_of_stdout (w : world) :
  filter is_overall w = filter is_overall (stdout w).
Proof.
  induction w as [| e w IH]; simpl; [reflexivity |].
  destruct e; simpl; rewrite ?IH; reflexivity.
Qed.

Lemma no_overall_in_results (l : list (expr * (float * float))) :
  filter is_overall (map (fun pr => line_of_result (fst pr) (snd pr)) l) = [].
Proof. induction l; simpl; auto. Qed.

Lemma stdout_prologue (lines : list string) :
  stdout (prologue lines) = [Print_header].
Proof. unfold prologue. rewrite stdout_app, stdout_parse. reflexivity. Qed.

Lemma simplified_prologue (lines : list string) :
  simplified (prologue lines) = [].
Proof.
  unfold prologue. rewrite simplified_app, simplified_parse. reflexivity.
Qed.

(** C3. Given a trial-function file whose N lines all parse and on whose
    N trial functions the pipeline succeeds, [main] runs the pipeline on
    each trial function in file order, prints exactly one result line per
    trial function in that order and nothing else after the header, and
    returns Python's [min] of the N energies: an element of the list of
    energies that none of them is below, when N is not 0. *)
Theorem main_reports_every_candidate (lines : list string) (xs : list expr)
    (results : list (float * float)) (w : world) :
  open_ default_txtdoc = Ok lines ->
  Forall2 parses lines xs ->
  Forall2 succeeds (map (subs "r" R_r) xs) results ->
  let psis := map (subs "r" R_r) xs in
  List.length results = List.length lines /\
  after main w = w ++ prologue lines ++ flat_map candidate_trace (combine psis results) /\
  simplified (after main []) = map (fun psi => Mul (conjugate psi) (H psi)) psis /\
  stdout (after main w)
    = stdout w ++ Print_header
        :: map (fun pr => line_of_result (fst pr) (snd pr)) (combine psis results) /\
  value main w = py_min (map snd results) /\
  (results <> [] ->
   exists m, value main w = Ok m /\ In m (map snd results) /\
             forall e, In e (map snd results) -> PyFloat.ltb e m = false).
Proof.
  intros Ho Hp Hs psis. subst psis.
  assert (Hrun := fun w0 => main_run w0 Ho Hp Hs).
  split.
  { rewrite <- (Forall2_length Hs), (Forall2_length Hp).
    now rewrite length_map. }
  split; [unfold after; now rewrite Hrun |].
  split.
  { unfold after. rewrite Hrun. cbn [snd app].
    rewrite simplified_app, simplified_prologue, simplified_candidates.
    cbn [app].
    rewrite <- (map_map fst (fun psi => Mul (conjugate psi) (H psi))).
    now rewrite (map_fst_combine Hs). }
  split.
  { unfold after. rewrite Hrun. cbn [snd].
    rewrite !stdout_app, stdout_prologue, stdout_candidates. reflexivity. }
  split; [unfold value; now rewrite Hrun |].
  intros Hne. unfold value. rewrite Hrun. simpl fst.
  apply py_min_minimum. destruct results; [congruence | discriminate].
Qed.

(** C7, as amended. When the pipeline of a trial function raises after
    the pipelines of those before it succeeded, the run raises the same
    exception: the pipeline is started on no later trial function and no
    overall minimum is printed; the result lines of the earlier trial
    functions have been printed before. *)
Theorem main_aborts_at_first_failure (lines : list string) (xs : list expr)
    (pre : list expr) (results : list (float * float)) (psi : expr)
    (post : list expr) (e : exn) (w : world) :
  open_ default_txtdoc = Ok lines ->
  Forall2 parses lines xs ->
  map (subs "r" R_r) xs = pre ++ psi :: post ->
  Forall2 succeeds pre results ->
  value (energy psi) [] = Raise e ->
  value script w = Raise e /\
  after script w
    = w ++ prologue lines ++ flat_map candidate_trace (combine pre results)
        ++ after (energy psi) [] /\
  simplified (after script [])
    = map (fun p => Mul (conjugate p) (H p)) (pre ++ [psi]) /\
  stdout (after script w)
    = stdout w ++ Print_header
        :: map (fun pr => line_of_result (fst pr) (snd pr)) (combine pre results) /\
  filter is_overall (after script []) = [].
Proof.
  intros Ho Hp Hsplit Hs He.
  assert (Hrun : forall w0, script w0 =
            (Raise e, w0 ++ prologue lines
               ++ flat_map candidate_trace (combine pre results)
               ++ after (energy psi) [])).
  { intros w0. rewrite script_run, (@main_run_failing B lines xs pre results psi post e w0 Ho Hp Hsplit Hs He).
    reflexivity. }
  assert (Hout : forall w0, stdout (after script w0)
            = stdout w0 ++ Print_header
                :: map (fun pr => line_of_result (fst pr) (snd pr))
                     (combine pre results)).
  { intros w0. unfold after. rewrite Hrun. cbn [snd].
    rewrite !stdout_app, stdout_prologue, stdout_candidates, energy_stdout.
    now rewrite app_nil_r. }
  split; [unfold value; now rewrite Hrun |].
  split; [unfold after; now rewrite Hrun |].
  split.
  { unfold after. rewrite Hrun. cbn [snd app].
    rewrite !simplified_app, simplified_prologue, simplified_candidates,
      energy_simplified. cbn [app].
    rewrite <- (map_map fst (fun p => Mul (conjugate p) (H p))).
    rewrite (map_fst_combine Hs), map_app. reflexivity. }
  split; [apply Hout |].
  rewrite overall_of_stdout, Hout. simpl. apply no_overall_in_results.
Qed.

(** C10. When the trial-function file has no line, [main] raises
    [ValueError], at the minimum of the empty list of energies: the
    header has been printed, the file has been opened, and no overall
    energy is returned or printed. *)
Theorem main_fails_on_empty_file (w : world) :
  open_ default_txtdoc = Ok [] ->
  value main w = Raise ValueError /\
  value script w = Raise ValueError /\
  after script w = w ++ [Print_header; Call_open default_txtdoc] /\
  filter is_overall (after script w) = filter is_overall w.
Proof.
  intros Ho.
  assert (Hrun : main w = (Raise ValueError,
                           w ++ [Print_header; Call_open default_txtdoc])).
  { rewrite (@main_run B [] [] [] w Ho (Forall2_nil _) (Forall2_nil _)).
    unfold prologue. simpl. rewrite ?app_nil_r. reflexivity. }
  assert (Hs : script w = (Raise ValueError,
                           w ++ [Print_header; Call_open default_txtdoc])).
  { rewrite script_run, Hrun. reflexivity. }
  split; [unfold value; now rewrite Hrun |].
  split; [unfold value; now rewrite Hs |].
  split; [unfold after; now rewrite Hs |].
  unfold after. rewrite Hs. simpl snd. rewrite filter_app. simpl.
  now rewrite app_nil_r.
Qed.

End DriverClaims.

Lemma main_reports_every_candidate_witness :
  value (hydr_var.main (B := Sample.backend ["2"; "1"]%string)) []
  = py_min (map snd [Sample.constant_result; Sample.constant_result]).
Proof.
  refine (proj1 (proj2 (proj2 (proj2 (proj2
    (main_reports_every_candidate (B := Sample.backend ["2"; "1"]%string)
       (xs := [Integer 2; Integer 1])
       (results := [Sample.constant_result; Sample.constant_result])
       [] _ _ _)))))).
  - reflexivity.
  - repeat constructor.
  - repeat constructor; vm_compute; reflexivity.
Defined.

Lemma main_aborts_at_first_failure_witness :
  value (hydr_var.script (B := Sample.backend ["1"; "0"; "2"]%string)) []
  = Raise ZeroDivisionError.
Proof.
  refine (proj1
    (@main_aborts_at_first_failure (Sample.backend ["1"; "0"; "2"]%string)
       ["1"; "0"; "2"]%string [Integer 1; Integer 0; Integer 2]
       [Integer 1] [Sample.constant_result] (Integer 0) [Integer 2]
       ZeroDivisionError [] _ _ _ _ _)).
  - reflexivity.
  - repeat constructor.
  - reflexivity.
  - repeat constructor; vm_compute; reflexivity.
  - vm_compute; reflexivity.
Defined.

Lemma main_fails_on_empty_file_witness :
  value (hydr_var.main (B := Sample.backend [])) [] = Raise ValueError.
Proof.
  refine (proj1 (main_fails_on_empty_file (B := Sample.backend []) [] _)).
  reflexivity.
Defined.

(** C7, refuted as stated: with the lines "1" and "0" the run raises
    [ZeroDivisionError] on the second trial function, after the result of
    the first was printed. *)
Lemma nothing_reported_on_failure_fails :
  ~ nothing_reported_on_failure (B := Sample.backend ["1"; "0"]%string).
Proof.
  intros Hn. destruct (Hn ZeroDivisionError) as [Hr _].
  - vm_compute. reflexivity.
  - vm_compute in Hr. discriminate Hr.
Qed.

(* ================================================================== *)
(** ** optipack.py: the integrator *)

Lemma bind_inv {S A B} (c : ST S A) (k : A -> ST S B) (s s' : S) (b : B) :
  bind c k s = (Ok b, s') ->
  exists a s1, c s = (Ok a, s1) /\ k a s1 = (Ok b, s').
Proof.
  rewrite bind_run. destruct (c s) as [[e | a] s1]; intros Hk.
  - discriminate Hk.
  - now exists a, s1.
Qed.

Lemma lift_inv {S A} (r : result A) (s s' : S) (a : A) :
  lift r s = (Ok a, s') -> r = Ok a /\ s' = s.
Proof. unfold lift. intros Hl. inversion Hl. auto. Qed.

Lemma rbind_inv {A B} (r : result A) (k : A -> result B) (b : B) :
  rbind r k = Ok b -> exists a, r = Ok a /\ k a = Ok b.
Proof. destruct r as [e | a]; simpl; [discriminate | eauto]. Qed.

Lemma last_cons {A} (x : A) (l : list A) (d : A) : last (x :: l) d = last l x.
Proof.
  revert x d. induction l as [| y l IH]; intros x d; [reflexivity |].
  change (last (x :: y :: l) d) with (last (y :: l) d).
  now rewrite (IH y d), (IH y x).
Qed.

Lemma last_Some_default {A} (l : list A) (d : option A) :
  last (map Some l) d =
  match last (map Some l) None with
  | Some a => Some a
  | None => d
  end.
Proof.
  revert d. induction l as [| x l IH]; intros d; [reflexivity |].
  cbn [map]. rewrite !last_cons, (IH (Some x)).
  destruct (last (map Some l) None); reflexivity.
Qed.

Lemma last_map_Some {A C} (f : A -> C) (l : list A) (d : option C) :
  last (map (fun a => Some (f a)) l) d =
  match last (map Some l) None with
  | Some a => Some (f a)
  | None => d
  end.
Proof.
  revert d. induction l as [| x l IH]; intros d; [reflexivity |].
  cbn [map]. rewrite !last_cons, (IH (Some (f x))), (last_Some_default l (Some x)).
  destruct (last (map Some l) None); reflexivity.
Qed.

Lemma set_index_app {A} (done rest : list A) (x : A) :
  optipack.set_index (done ++ rest) (List.length done) x =
  match rest with
  | [] => Raise IndexError
  | _ :: rest' => Ok (done ++ x :: rest')
  end.
Proof.
  induction done as [| y done IH]; simpl.
  - destruct rest; reflexivity.
  - rewrite IH. destruct rest; reflexivity.
Qed.

Section Integrator.

Context {G : Random}.
Import optipack.

Variables (pfunc qfunc : func) (sample_iter : nat) (alpha : float) (dims : nat).

(** The loop over the samples adds up the observable and records it. *)
Lemma q_loop_observe (arrays : list point) (sums : float) (test : list float) :
  q_loop qfunc alpha arrays sums test =
  rbind (observe qfunc alpha arrays) (fun qs =>
    Ok (fold_left PyFloat.add qs sums, test ++ qs)).
Proof.
  revert sums test. induction arrays as [| x arrays IH]; intros sums test; simpl.
  - now rewrite app_nil_r.
  - destruct (qfunc x alpha) as [e | q]; simpl; [reflexivity |].
    rewrite IH. destruct (observe qfunc alpha arrays) as [e | qs]; simpl;
      [reflexivity |].
    now rewrite <- app_assoc.
Qed.

(** One walker that succeeds: a run of the sampler, the observable on its
    samples, and the entry written to [vals]. *)
Lemma walker_inv (l l' : walk_locals) (i : nat) (st st' : state) :
  walker pfunc qfunc sample_iter alpha dims l i st = (Ok l', st') ->
  exists r qs v vals',
    metropolis_hastings pfunc sample_iter alpha dims st = (Ok r, st') /\
    observe qfunc alpha (run_samples r) = Ok qs /\
    truediv (np_sum qs) (of_nat (sample_iter - 0)) = Ok v /\
    set_index (vals l) i v = Ok vals' /\
    l' = mkWalk vals' (w_test l ++ qs) (Some (run_rejects r)) (Some (run_test r)).
Proof.
  unfold walker. intros Hw.
  apply bind_inv in Hw. destruct Hw as ([[mc_samples rej] pp] & st1 & Hmh & Hw).
  apply bind_inv in Hw. destruct Hw as ([sums test] & st2 & Hq & Hw).
  apply lift_inv in Hq. destruct Hq as [Hq ->].
  apply bind_inv in Hw. destruct Hw as (v & st3 & Hv & Hw).
  apply lift_inv in Hv. destruct Hv as [Hv ->].
  apply bind_inv in Hw. destruct Hw as (vals' & st4 & Hs & Hw).
  apply lift_inv in Hs. destruct Hs as [Hs ->].
  unfold ret in Hw. inversion Hw; subst st' l'. clear Hw.
  simpl skipn in Hq. rewrite q_loop_observe in Hq.
  apply rbind_inv in Hq. destruct Hq as (qs & Hobs & Hq).
  inversion Hq; subst sums test. clear Hq.
  exists (mc_samples, rej, pp), qs, v, vals'.
  repeat split; assumption.
Qed.

End Integrator.

Section Sampler.

Context {G : Random}.
Import optipack.

Variables (pfunc : func) (iter : nat) (alpha : float) (dims : nat).

Lemma index_inv {A} (l : list A) (i : nat) (x : A) :
  index l i = Ok x -> nth_error l i = Some x.
Proof. unfold index. destruct (nth_error l i); intros Hi; inversion Hi; auto. Qed.

(** A turn of the sampling loop keeps the samples, or adds one sample
    together with what the read of its index 3 gave; it adds one exactly
    when the turn is not the first. *)
Lemma mh_step_inv (l l' : mh_locals) (i : nat) (st st' : state) :
  mh_step pfunc iter alpha dims l i st = (Ok l', st') ->
  (i = 0 /\ samples l' = samples l /\ test l' = test l) \/
  (0 < i /\ exists pt x, read_fourth pt x /\ samples l' = samples l ++ [pt] /\
                        test l' = test l ++ [x]).
Proof.
  unfold mh_step. intros Hs.
  do 10 (apply bind_inv in Hs; destruct Hs as (? & ? & ? & Hs)).
  apply bind_inv in Hs. destruct Hs as (l2 & st2 & Hl2 & Hs).
  assert (Hkeep : samples l2 = samples l /\ test l2 = test l).
  { destruct (PyFloat.ltb _ _).
    - unfold ret in Hl2. inversion Hl2. auto.
    - apply bind_inv in Hl2. destruct Hl2 as (d & st3 & _ & Hl2).
      unfold ret in Hl2. inversion Hl2. auto. }
  destruct Hkeep as [Hsam Htest].
  destruct (0 <? Z.of_nat i)%Z eqn:Hi.
  - right. apply Z.ltb_lt in Hi. split; [lia |].
    rewrite Z.mod_1_r in Hs. simpl in Hs.
    apply bind_inv in Hs. destruct Hs as (sample & st3 & Hpt & Hs).
    apply bind_inv in Hs. destruct Hs as (coord & st4 & Hx & Hs).
    assert (Hcoord : read_fourth sample coord).
    { unfold unchecked_read in Hx. intros y Hy. rewrite Hy in Hx.
      inversion Hx. reflexivity. }
    unfold ret in Hs. inversion Hs. simpl.
    exists sample, coord. rewrite Hsam, Htest.
    split; [exact Hcoord | split; reflexivity].
  - left. apply Z.ltb_ge in Hi. unfold ret in Hs. inversion Hs; subst.
    split; [lia | auto].
Qed.

Lemma mh_loop (n : nat) :
  forall (k : nat) (l l' : mh_locals) (st st' : state),
    for_each (seq k n) (mh_step pfunc iter alpha dims) l st = (Ok l', st') ->
    Forall2 read_fourth (samples l) (test l) ->
    Forall2 read_fourth (samples l') (test l') /\
    List.length (samples l')
      = List.length (samples l) + (n - (if Nat.eqb k 0 then 1 else 0)).
Proof.
  induction n as [| n IH]; intros k l l' st st' Hloop Hinv.
  - simpl in Hloop. unfold ret in Hloop. inversion Hloop; subst. split; [auto | lia].
  - simpl in Hloop. apply bind_inv in Hloop.
    destruct Hloop as (l1 & st1 & Hstep & Hloop).
    apply mh_step_inv in Hstep.
    destruct Hstep as [(Hk & Hsam & Htest) | (Hk & pt & x & Hx & Hsam & Htest)].
    + destruct (@IH (S k) l1 l' st1 st' Hloop) as [Hinv' Hlen].
      { now rewrite Hsam, Htest. }
      split; [exact Hinv' |]. rewrite Hlen, Hsam. subst k. simpl. lia.
    + destruct (@IH (S k) l1 l' st1 st' Hloop) as [Hinv' Hlen].
      { rewrite Hsam, Htest. apply Forall2_app; [exact Hinv | repeat constructor; exact Hx]. }
      split; [exact Hinv' |]. rewrite Hlen, Hsam, length_app.
      destruct k; [lia |]. simpl. lia.
Qed.

(** A run of the sampler returns [iter - 1] samples, the first turn being
    discarded, and what the read of index 3 of each of them gave in
    [test]. *)
Lemma metropolis_hastings_samples (st st' : state) (r : run) :
  metropolis_hastings pfunc iter alpha dims st = (Ok r, st') ->
  Forall2 read_fourth (run_samples r) (run_test r) /\
  List.length (run_samples r) = iter - 1.
Proof.
  unfold metropolis_hastings. intros Hm.
  apply bind_inv in Hm. destruct Hm as (m0 & st1 & _ & Hm).
  apply bind_inv in Hm. destruct Hm as (l & st2 & Hloop & Hm).
  unfold ret in Hm. inversion Hm; subst r st'. clear Hm.
  destruct (@mh_loop _ _ _ _ _ _ Hloop) as [Hinv Hlen]; [constructor |].
  unfold run_samples, run_test. simpl in *. split; [exact Hinv | lia].
Qed.

End Sampler.

Lemma last_Some_In {A} (l : list A) (x : A) :
  last (map Some l) None = Some x -> In x l.
Proof.
  induction l as [| y l IH]; [discriminate |].
  cbn [map]. rewrite last_cons, last_Some_default.
  destruct (last (map Some l) None) as [z |] eqn:Hl; intros Hx.
  - right. apply IH. exact Hx.
  - left. congruence.
Qed.

(* ================================================================== *)
(** ** Further properties of hydr_var.py *)

(** Replacing a symbol by a base scalar, as [readtrialfuncs] does with
    [r] and [R.r], is the same as reading the symbol as that base scalar:
    the value of the substituted expression is the value of the original
    one under the valuation that gives the symbol the value of the base
    scalar. *)
Theorem subs_base_scalar_denote (name : string) (sys : CoordSys3D) (i : nat)
    (v : valuation) (e : expr) :
  denote v (subs name (BaseScalar sys i) e)
  = denote (rename_symbol name sys i v) e.
Proof.
  induction e as [sys0 j | n | z | f | a IHa b IHb | a IHa b IHb
                 | b IHb ex IHex | a IHa | a IHa | g a IHa].
  - reflexivity.
  - simpl. destruct (String.eqb n name); reflexivity.
  - reflexivity.
  - reflexivity.
  - simpl. now rewrite IHa, IHb.
  - simpl. now rewrite IHa, IHb.
  - destruct ex as [sys1 j | n | z | f | x y | x y | x y | x | x | g x];
      try (cbn [subs denote] in *; rewrite IHb, <- ?IHex; reflexivity).
    cbn [subs denote] in *. destruct (String.eqb n name) eqn:Hn;
      cbn [denote]; rewrite IHb; simpl; rewrite Hn; reflexivity.
  - simpl. now rewrite IHa.
  - simpl. now rewrite IHa.
  - simpl. now rewrite IHa.
Qed.

(** After the substitution of a base scalar for a symbol, the symbol does
    not occur any more. *)
Lemma subs_base_scalar_mentions (name : string) (sys : CoordSys3D) (i : nat)
    (e : expr) :
  mentions name (subs name (BaseScalar sys i) e) = false.
Proof.
  induction e; simpl; rewrite ?IHe, ?IHe1, ?IHe2; try reflexivity.
  destruct (String.eqb name0 name) eqn:Hn; simpl; [reflexivity | exact Hn].
Qed.

Section Reading.

Context {B : Backend}.
Import hydr_var.

Lemma read_line_raise (trialfuncs : list expr) (line : string) (e : exn)
    (w : world) :
  parse_expr line = Raise e ->
  read_line trialfuncs line w = (Raise e, w ++ [Call_parse_expr line]).
Proof.
  intros He. unfold read_line. apply bind_raise.
  unfold call_parse_expr. rewrite bind_run. unfold emit, lift.
  rewrite He. reflexivity.
Qed.

Lemma read_lines_raise (pre : list string) (xs : list expr) (bad : string)
    (post : list string) (e : exn) :
  Forall2 parses pre xs ->
  parse_expr bad = Raise e ->
  forall (acc : list expr) (w : world),
    for_each (pre ++ bad :: post) read_line acc w =
    (Raise e, w ++ map Call_parse_expr (pre ++ [bad])).
Proof.
  intros Hpre Hbad.
  induction Hpre as [| line x pre xs Hx _ IH]; intros acc w; simpl.
  - apply bind_raise. now apply read_line_raise.
  - rewrite (bind_ok _ _ (read_line_run acc w Hx)), IH, <- !app_assoc.
    reflexivity.
Qed.

Lemma readtrialfuncs_raise (txtdoc : string) (pre : list string)
    (xs : list expr) (bad : string) (post : list string) (e : exn) (w : world) :
  open_ txtdoc = Ok (pre ++ bad :: post) ->
  Forall2 parses pre xs ->
  parse_expr bad = Raise e ->
  readtrialfuncs txtdoc w =
  (Raise e, w ++ Call_open txtdoc :: map Call_parse_expr (pre ++ [bad])).
Proof.
  intros Ho Hpre Hbad. unfold readtrialfuncs.
  rewrite (bind_ok _ _ (a := pre ++ bad :: post) (s' := w ++ [Call_open txtdoc])).
  - rewrite (@read_lines_raise pre xs bad post e Hpre Hbad), <- app_assoc.
    reflexivity.
  - unfold call_open. rewrite bind_run. unfold emit, lift.
    rewrite Ho. reflexivity.
Qed.

Lemma parsed_lines (lines : list string) :
  parsed (map Call_parse_expr lines) = lines.
Proof. induction lines; simpl; congruence. Qed.

Lemma minimized_lines (lines : list string) :
  minimized (map Call_parse_expr lines) = [].
Proof. induction lines; simpl; auto. Qed.

(** When every line of the file parses, [readtrialfuncs] returns one
    trial function per line, in file order, and none of them mentions the
    plain symbol r; every line was given to the parser once, in order. *)
Theorem readtrialfuncs_reads_every_line (txtdoc : string)
    (lines : list string) (xs : list expr) (w : world) :
  open_ txtdoc = Ok lines ->
  Forall2 parses lines xs ->
  exists trialfuncs,
    value (readtrialfuncs txtdoc) w = Ok trialfuncs /\
    List.length trialfuncs = List.length lines /\
    Forall2 (fun x psi => psi = subs "r" R_r x) xs trialfuncs /\
    Forall (fun psi => mentions "r" psi = false) trialfuncs /\
    parsed (after (readtrialfuncs txtdoc) []) = lines.
Proof.
  intros Ho Hp. exists (map (subs "r" R_r) xs).
  unfold value, after. rewrite !(readtrialfuncs_run _ _ Ho Hp).
  split; [reflexivity |].
  split; [now rewrite length_map, (Forall2_length Hp) |].
  split.
  { clear Hp. induction xs; simpl; constructor; auto. }
  split.
  { apply Forall_forall. intros psi Hin. apply in_map_iff in Hin.
    destruct Hin as (x & <- & _). apply subs_base_scalar_mentions. }
  simpl. apply parsed_lines.
Qed.

(** [readtrialfuncs] stops at the first line that does not parse: it
    raises the parser's exception, and the lines after it are not given
    to the parser. *)
Theorem readtrialfuncs_stops_at_malformed_line (txtdoc : string)
    (pre : list string) (xs : list expr) (bad : string) (post : list string)
    (e : exn) (w : world) :
  open_ txtdoc = Ok (pre ++ bad :: post) ->
  Forall2 parses pre xs ->
  parse_expr bad = Raise e ->
  value (readtrialfuncs txtdoc) w = Raise e /\
  parsed (after (readtrialfuncs txtdoc) []) = pre ++ [bad].
Proof.
  intros Ho Hpre Hbad. unfold value, after.
  rewrite !(@readtrialfuncs_raise txtdoc pre xs bad post e _ Ho Hpre Hbad).
  split; [reflexivity |]. simpl. apply parsed_lines.
Qed.

(** The whole file is parsed before the first pipeline starts: a line
    that does not parse, wherever it is in the file, aborts the run with
    the parser's exception after the header was printed, and no trial
    function is simplified, minimized or reported, not even those of the
    lines before it. *)
Theorem main_aborts_on_malformed_line (pre : list string) (xs : list expr)
    (bad : string) (post : list string) (e : exn) (w : world) :
  open_ default_txtdoc = Ok (pre ++ bad :: post) ->
  Forall2 parses pre xs ->
  parse_expr bad = Raise e ->
  value script w = Raise e /\
  stdout (after script w) = stdout w ++ [Print_header] /\
  simplified (after script []) = [] /\
  minimized (after script []) = [].
Proof.
  intros Ho Hpre Hbad.
  assert (Hrun : forall w0, script w0 =
            (Raise e, w0 ++ Print_header :: Call_open default_txtdoc
                         :: map Call_parse_expr (pre ++ [bad]))).
  { intros w0. unfold script. apply bind_raise. unfold main, print.
    rewrite (bind_ok _ _ (a := tt) (s' := w0 ++ [Print_header])) by reflexivity.
    rewrite (bind_raise _ _
               (@readtrialfuncs_raise default_txtdoc pre xs bad post e _ Ho Hpre Hbad)).
    now rewrite <- app_assoc. }
  unfold value, after. rewrite !Hrun. cbn [fst snd app].
  split; [reflexivity |].
  split.
  { rewrite stdout_app. cbn [stdout filter is_print].
    fold (stdout (map Call_parse_expr (pre ++ [bad]))).
    now rewrite stdout_parse. }
  split.
  - cbn [simplified]. apply simplified_parse.
  - cbn [minimized]. apply minimized_lines.
Qed.

End Reading.

Lemma readtrialfuncs_reads_every_line_witness :
  exists trialfuncs,
    value (hydr_var.readtrialfuncs (B := Sample.backend ["r"; "2"]%string)
             hydr_var.default_txtdoc) [] = Ok trialfuncs /\
    List.length trialfuncs = 2.
Proof.
  destruct (@readtrialfuncs_reads_every_line (Sample.backend ["r"; "2"]%string)
              hydr_var.default_txtdoc ["r"; "2"]%string [Symbol "r"; Integer 2] [])
    as (trialfuncs & Hv & Hl & _).
  - reflexivity.
  - repeat constructor.
  - exists trialfuncs. split; [exact Hv | exact Hl].
Defined.

Lemma readtrialfuncs_stops_at_malformed_line_witness :
  value (hydr_var.readtrialfuncs (B := Sample.backend ["1"; "x+"; "2"]%string)
           hydr_var.default_txtdoc) []
  = Raise (LibraryError "SyntaxError").
Proof.
  refine (proj1
    (@readtrialfuncs_stops_at_malformed_line
       (Sample.backend ["1"; "x+"; "2"]%string) hydr_var.default_txtdoc
       ["1"%string] [Integer 1] "x+"%string ["2"%string]
       (LibraryError "SyntaxError") [] _ _ _)).
  - reflexivity.
  - repeat constructor.
  - reflexivity.
Defined.

Lemma main_aborts_on_malformed_line_witness :
  value (hydr_var.script (B := Sample.backend ["1"; "x+"; "2"]%string)) []
  = Raise (LibraryError "SyntaxError").
Proof.
  refine (proj1
    (@main_aborts_on_malformed_line
       (Sample.backend ["1"; "x+"; "2"]%string)
       ["1"%string] [Integer 1] "x+"%string ["2"%string]
       (LibraryError "SyntaxError") [] _ _ _)).
  - reflexivity.
  - repeat constructor.
  - reflexivity.
Defined.

Section Minimization.

Context {B : Backend}.
Import hydr_var.

(** [var_intgrl] computes the normalization first: when [norm_intgrl]
    raises, by an exception of [quad] or by a zero integral, the
    expectation integral is not computed at all; otherwise [quad] is
    called a second time, for the expectation integrand. *)
Theorem var_intgrl_quad_calls (a : float) (expectation_lamb norm_lamb : callable)
    (stpt endpt : float) (w : world) :
  after (var_intgrl a expectation_lamb norm_lamb stpt endpt) w =
  w ++ Call_quad norm_lamb stpt endpt a
    :: match value (norm_intgrl norm_lamb a stpt endpt) w with
       | inl _ => []
       | inr _ => [Call_quad expectation_lamb PyFloat.zero endpt a]
       end.
Proof.
  unfold after, value, var_intgrl. rewrite bind_run, norm_intgrl_run. simpl fst.
  destruct (rbind (quad norm_lamb stpt endpt a) _) as [e | n].
  - reflexivity.
  - rewrite bind_run, expectation_intgrl_run.
    destruct (rbind (quad expectation_lamb PyFloat.zero endpt a) _);
      simpl; now rewrite <- app_assoc.
Qed.

(** The objective that [energy] gives to the minimizer: at the parameter
    value [a], the inverse of the integral of the normalization integrand
    times the integral of the expectation integrand, both from 0 to 1000. *)
Lemma objective_value (expectation_lamb norm_lamb : callable) (a : float)
    (w : world) :
  value (var_intgrl a expectation_lamb norm_lamb default_stpt default_endpt) w =
  rbind (quad norm_lamb default_stpt default_endpt a) (fun n =>
  rbind (truediv PyFloat.one (fst n)) (fun N_squared =>
  rbind (quad expectation_lamb PyFloat.zero default_endpt a) (fun ex =>
  Ok (PyFloat.mul N_squared (fst ex))))).
Proof.
  unfold value, var_intgrl. rewrite bind_run, norm_intgrl_run.
  destruct (quad norm_lamb default_stpt default_endpt a) as [e | n]; [reflexivity |].
  simpl rbind. destruct (truediv PyFloat.one (fst n)) as [e | N2]; [reflexivity |].
  rewrite bind_run, expectation_intgrl_run.
  destruct (quad expectation_lamb PyFloat.zero default_endpt a); reflexivity.
Qed.

(** When simplification and both lambdifications succeed, the pair that
    [energy] returns is what the minimizer returns for the initial guess
    0.1 and the objective that maps a parameter value to the quotient of
    the two integrals over [0, 1000], which raises where [quad] raises or
    the normalization integral is a zero; an exception that the minimizer
    raises is the exception of [energy]. *)
Theorem energy_minimizes_quotient (psi expectation : expr)
    (expectation_lamb norm_lamb : callable) (w : world) :
  simplify (Mul (conjugate psi) (H psi)) = Ok expectation ->
  lambdify [R_r; alpha] (Mul expectation jacobian) "scipy" = Ok expectation_lamb ->
  lambdify [R_r; alpha] (Mul (Mul (conjugate psi) psi) jacobian) "scipy"
    = Ok norm_lamb ->
  value (energy psi) w =
  fmin
    (fun a =>
       rbind (quad norm_lamb PyFloat.zero (PyFloat.of_Z 1000) a) (fun n =>
       rbind (truediv PyFloat.one (fst n)) (fun N_squared =>
       rbind (quad expectation_lamb PyFloat.zero (PyFloat.of_Z 1000) a) (fun ex =>
       Ok (PyFloat.mul N_squared (fst ex))))))
    PyFloat.lit_0_1.
Proof.
  intros Hs He Hn. unfold value, energy, sym_mul.
  rewrite bind_run, call_simplify_run, Hs. unfold Ok at 1.
  rewrite bind_run, call_lambdify_run, He. unfold Ok at 1.
  rewrite bind_run, call_lambdify_run, Hn. unfold Ok at 1.
  unfold call_fmin. simpl fst. f_equal.
  apply functional_extensionality. intros a. apply objective_value.
Qed.

(** The minimizer is started only after the simplification and both
    lambdifications succeeded, and then once, from the initial guess 0.1. *)
Theorem energy_minimizes_after_all_stages (psi : expr) :
  minimized (after (energy psi) []) <> [] ->
  (exists expectation expectation_lamb norm_lamb,
     simplify (Mul (conjugate psi) (H psi)) = Ok expectation /\
     lambdify [R_r; alpha] (Mul expectation jacobian) "scipy"
       = Ok expectation_lamb /\
     lambdify [R_r; alpha] (Mul (Mul (conjugate psi) psi) jacobian) "scipy"
       = Ok norm_lamb) /\
  minimized (after (energy psi) []) = [PyFloat.lit_0_1].
Proof.
  unfold after, energy, sym_mul. rewrite bind_run, call_simplify_run.
  destruct (simplify _) as [e | expectation] eqn:Hs;
    [intros Hm; exfalso; apply Hm; reflexivity |].
  rewrite bind_run, call_lambdify_run.
  destruct (lambdify _ (Mul expectation jacobian) _) as [e | expectation_lamb] eqn:He;
    [intros Hm; exfalso; apply Hm; reflexivity |].
  rewrite bind_run, call_lambdify_run.
  destruct (lambdify _ (Mul (Mul (conjugate psi) psi) jacobian) _)
    as [e | norm_lamb] eqn:Hn;
    [intros Hm; exfalso; apply Hm; reflexivity |].
  intros _. split; [| reflexivity].
  exists expectation, expectation_lamb, norm_lamb. auto.
Qed.

End Minimization.

Lemma energy_minimizes_quotient_witness :
  value (hydr_var.energy (B := Sample.backend []) (Integer 1)) []
  = Ok Sample.constant_result.
Proof.
  rewrite (@energy_minimizes_quotient (Sample.backend []) (Integer 1)
             (Mul (conjugate (Integer 1))
                (hydr_var.H (B := Sample.backend []) (Integer 1)))
             (Sample.feval
                (Mul (Mul (conjugate (Integer 1))
                        (hydr_var.H (B := Sample.backend []) (Integer 1)))
                   hydr_var.jacobian))
             (Sample.feval
                (Mul (Mul (conjugate (Integer 1)) (Integer 1)) hydr_var.jacobian))
             [] eq_refl eq_refl eq_refl).
  vm_compute. reflexivity.
Defined.

Lemma energy_minimizes_after_all_stages_witness :
  minimized (after (hydr_var.energy (B := Sample.backend []) (Integer 1)) [])
  = [PyFloat.lit_0_1].
Proof.
  refine (proj2
    (@energy_minimizes_after_all_stages (Sample.backend []) (Integer 1) _)).
  vm_compute. discriminate.
Defined.

(* ================================================================== *)
(** ** Further properties of the sampler of optipack.py *)

Lemma set_index_inv {A} (l : list A) :
  forall (i : nat) (x : A) (l' : list A),
    optipack.set_index l i x = Ok l' ->
    i < List.length l /\ List.length l' = List.length l /\
    forall P : A -> Prop, Forall P l -> P x -> Forall P l'.
Proof.
  induction l as [| y l IH]; intros i x l' Hs; simpl in Hs; [discriminate Hs |].
  destruct i as [| i].
  - inversion Hs; subst l'. simpl. split; [lia |]. split; [reflexivity |].
    intros P Hl Hx. inversion Hl; subst. now constructor.
  - apply rbind_inv in Hs. destruct Hs as (r & Hr & Hs). inversion Hs; subst l'.
    destruct (IH _ _ _ Hr) as (Hi & Hlen & HP).
    simpl. split; [lia |]. split; [now rewrite Hlen |].
    intros P Hl Hx. inversion Hl; subst. constructor; auto.
Qed.

Lemma set_index_ok {A} (l : list A) :
  forall (i : nat) (x : A),
    i < List.length l -> exists l', optipack.set_index l i x = Ok l'.
Proof.
  induction l as [| y l IH]; intros i x Hi; simpl in Hi; [lia |].
  destruct i as [| i]; simpl.
  - eexists. reflexivity.
  - destruct (IH i x) as (l' & Hl'); [lia |]. rewrite Hl'. simpl.
    eexists. reflexivity.
Qed.

Lemma row_add_length (a b : optipack.point) :
  List.length a = 3 -> List.length b = 3 ->
  List.length (optipack.row_add a b) = 3.
Proof.
  destruct a as [| a0 [| a1 [| a2 [| ]]]]; try discriminate.
  destruct b as [| b0 [| b1 [| b2 [| ]]]]; try discriminate.
  reflexivity.
Qed.

Lemma concat_three_columns (m : optipack.matrix) :
  three_columns m -> List.length (List.concat m) = 3 * List.length m.
Proof.
  induction 1 as [| row m Hrow _ IH]; simpl; [reflexivity |].
  rewrite length_app, IH, Hrow. lia.
Qed.

Lemma reshape_row_inv (m : optipack.matrix) (dims : nat) (pt : optipack.point) :
  optipack.reshape_row m dims = Ok pt ->
  pt = List.concat m /\ List.length pt = dims.
Proof.
  unfold optipack.reshape_row.
  destruct (Nat.eqb_spec (List.length (List.concat m)) dims) as [Hd | Hd];
    intros Hr; inversion Hr; subst; auto.
Qed.

Section SamplerShape.

Context {G : Random}.
Import optipack.

Variables (pfunc : func) (iter : nat) (alpha : float) (dims : nat).

(** A draw of three numbers always returns, with three numbers, and
    leaves the console as it is. *)
Lemma np_random_rand3_run (st : state) :
  exists u g, np_random_rand3 st = (Ok u, (g, snd st)) /\ List.length u = 3.
Proof.
  unfold np_random_rand3, np_random_rand, bind, ret.
  destruct (rand (fst st)) as [u0 g0]. cbn [fst snd].
  destruct (rand g0) as [u1 g1]. cbn [fst snd].
  destruct (rand g1) as [u2 g2]. cbn [fst snd].
  exists [u0; u1; u2], g2. split; reflexivity.
Qed.

Lemma np_random_rand3_inv (st st' : state) (u : point) :
  np_random_rand3 st = (Ok u, st') -> List.length u = 3.
Proof.
  destruct (np_random_rand3_run st) as (u' & g & Hrun & Hlen).
  rewrite Hrun. intros Hu. inversion Hu; subst. exact Hlen.
Qed.

Lemma spread_length (u : point) : List.length (spread u) = List.length u.
Proof. unfold spread. apply length_map. Qed.

(** Filling the matrix with the initial positions always succeeds, keeps
    its shape and prints nothing. *)
Lemma initial_positions_run (n : nat) :
  forall (k : nat) (m : matrix) (st : state),
    k + n <= List.length m ->
    three_columns m ->
    exists m' g,
      for_each (seq k n)
        (fun m i => u <- np_random_rand3 ;; lift (set_index m i (spread u)))
        m st = (Ok m', (g, snd st)) /\
      List.length m' = List.length m /\ three_columns m'.
Proof.
  induction n as [| n IH]; intros k m st Hk Hm; simpl.
  - exists m, (fst st). unfold ret. destruct st. auto.
  - destruct (np_random_rand3_run st) as (u & g & Hu & Hlen).
    destruct (@set_index_ok _ m k (spread u)) as (m1 & Hm1); [lia |].
    destruct (set_index_inv _ _ _ Hm1) as (_ & Hlen1 & HP).
    destruct (IH (S k) m1 (g, snd st)) as (m' & g' & Hrun & Hlen' & Hm').
    { rewrite Hlen1. lia. }
    { apply HP; [exact Hm |]. now rewrite spread_length. }
    exists m', g'. rewrite bind_run, bind_run, Hu. unfold Ok at 1.
    unfold lift at 1. rewrite Hm1. unfold Ok at 1. cbv iota beta.
    split; [exact Hrun |]. split; [now rewrite Hlen', Hlen1 | exact Hm'].
Qed.

(** A turn of the sampling loop that returns keeps the shape of the
    matrix, needs a matrix with at least one row and [dims] entries, and
    every sample it adds has [dims] coordinates. *)
Lemma mh_step_shape (l l' : mh_locals) (i : nat) (st st' : state) :
  mh_step pfunc iter alpha dims l i st = (Ok l', st') ->
  three_columns (initial_matrix l) ->
  three_columns (initial_matrix l') /\
  List.length (initial_matrix l') = List.length (initial_matrix l) /\
  dims = 3 * List.length (initial_matrix l) /\
  0 < List.length (initial_matrix l) /\
  (Forall (fun pt => List.length pt = dims) (samples l) ->
   Forall (fun pt => List.length pt = dims) (samples l')).
Proof.
  unfold mh_step. intros Hs Hm.
  apply bind_inv in Hs. destruct Hs as (e_index & s1 & _ & Hs).
  apply bind_inv in Hs. destruct Hs as (row & s2 & Hrow & Hs).
  apply lift_inv in Hrow. destruct Hrow as [Hrow _].
  apply bind_inv in Hs. destruct Hs as (u & s3 & Hu & Hs).
  apply np_random_rand3_inv in Hu.
  apply bind_inv in Hs. destruct Hs as (trial & s4 & Htrial & Hs).
  apply lift_inv in Htrial. destruct Htrial as [Htrial _].
  apply bind_inv in Hs. destruct Hs as (proposed & s5 & _ & Hs).
  apply bind_inv in Hs. destruct Hs as (initial & s6 & Hinit & Hs).
  apply lift_inv in Hinit. destruct Hinit as [Hinit _].
  do 4 (apply bind_inv in Hs; destruct Hs as (? & ? & _ & Hs)).
  apply bind_inv in Hs. destruct Hs as (l2 & s7 & Hl2 & Hs).
  apply index_inv in Hrow.
  assert (Hrow3 : List.length row = 3).
  { unfold three_columns in Hm. rewrite Forall_forall in Hm.
    apply Hm. eapply nth_error_In. exact Hrow. }
  assert (Hne : 0 < List.length (initial_matrix l)).
  { pose proof (nth_error_In _ _ Hrow) as Hin.
    destruct (initial_matrix l); [destruct Hin | simpl; lia]. }
  destruct (set_index_inv _ _ _ Htrial) as (_ & Hlen_t & HP).
  assert (Htrial3 : three_columns trial).
  { apply HP; [exact Hm |]. apply row_add_length; [exact Hrow3 |].
    now rewrite length_map, spread_length. }
  destruct (reshape_row_inv _ _ Hinit) as [Hc Hdims]. subst initial.
  rewrite concat_three_columns in Hdims by exact Hm.
  assert (Hl2' : (initial_matrix l2 = trial \/ initial_matrix l2 = initial_matrix l)
                 /\ samples l2 = samples l).
  { destruct (PyFloat.ltb _ _).
    - unfold ret in Hl2. inversion Hl2. auto.
    - apply bind_inv in Hl2. destruct Hl2 as (d & s8 & _ & Hl2).
      unfold ret in Hl2. inversion Hl2. auto. }
  destruct Hl2' as [Hmat Hsam].
  assert (Hshape2 : three_columns (initial_matrix l2) /\
                    List.length (initial_matrix l2) = List.length (initial_matrix l)).
  { destruct Hmat as [-> | ->]; auto. }
  destruct Hshape2 as [Hm2 Hlen2].
  assert (Hfinal : initial_matrix l' = initial_matrix l2 /\
                   (samples l' = samples l2 \/
                    exists pt, samples l' = samples l2 ++ [pt] /\ List.length pt = dims)).
  { destruct (0 <? Z.of_nat i)%Z.
    - rewrite Z.mod_1_r in Hs. simpl in Hs.
      apply bind_inv in Hs. destruct Hs as (sample & s8 & Hpt & Hs).
      apply lift_inv in Hpt. destruct Hpt as [Hpt _].
      apply bind_inv in Hs. destruct Hs as (coord & s9 & _ & Hs).
      unfold ret in Hs. inversion Hs. simpl. split; [reflexivity |].
      right. exists sample. split; [reflexivity |].
      now destruct (reshape_row_inv _ _ Hpt).
    - unfold ret in Hs. inversion Hs; subst. auto. }
  destruct Hfinal as [Hmat' Hsam'].
  rewrite Hmat'. repeat split; auto; try lia.
  intros Hall. destruct Hsam' as [-> | (pt & -> & Hpt)]; rewrite Hsam.
  - exact Hall.
  - apply Forall_app. split; [exact Hall | repeat constructor; exact Hpt].
Qed.

Lemma mh_loop_shape (n : nat) :
  forall (k : nat) (l l' : mh_locals) (st st' : state),
    for_each (seq k n) (mh_step pfunc iter alpha dims) l st = (Ok l', st') ->
    three_columns (initial_matrix l) ->
    Forall (fun pt => List.length pt = dims) (samples l) ->
    three_columns (initial_matrix l') /\
    Forall (fun pt => List.length pt = dims) (samples l') /\
    (0 < n -> dims = 3 * List.length (initial_matrix l) /\
              0 < List.length (initial_matrix l)).
Proof.
  induction n as [| n IH]; intros k l l' st st' Hloop Hm Hs.
  - simpl in Hloop. unfold ret in Hloop. inversion Hloop; subst.
    repeat split; auto; lia.
  - simpl in Hloop. apply bind_inv in Hloop.
    destruct Hloop as (l1 & st1 & Hstep & Hloop).
    destruct (@mh_step_shape _ _ _ _ _ Hstep Hm) as (Hm1 & Hlen1 & Hd & Hne & Hs1).
    destruct (IH (S k) l1 l' st1 st' Hloop Hm1 (Hs1 Hs)) as (Hm' & Hs' & _).
    repeat split; auto.
Qed.

Lemma zeros_three_columns (n : nat) :
  three_columns (repeat (repeat PyFloat.zero 3) n).
Proof.
  apply Forall_forall. intros row Hin. apply repeat_spec in Hin. now subst row.
Qed.

(** The matrix the sampling loop starts from has [dims/3] rows of three
    entries. *)
Lemma metropolis_hastings_inv (st st' : state) (r : run) :
  metropolis_hastings pfunc iter alpha dims st = (Ok r, st') ->
  exists (m0 : matrix) (l : mh_locals) (st1 : state),
    three_columns m0 /\ List.length m0 = int_dims_3 dims /\
    for_each (seq 0 iter) (mh_step pfunc iter alpha dims)
      (mkLocals m0 PyFloat.zero [] []) st1 = (Ok l, st') /\
    r = (samples l, reject_ratio l, test l).
Proof.
  unfold metropolis_hastings. intros Hm.
  apply bind_inv in Hm. destruct Hm as (m0 & st1 & Hinit & Hm).
  apply bind_inv in Hm. destruct Hm as (l & st2 & Hloop & Hm).
  unfold ret in Hm. inversion Hm; subst r st2. clear Hm.
  destruct (@initial_positions_run (int_dims_3 dims) 0
              (repeat (repeat PyFloat.zero 3) (int_dims_3 dims)) st)
    as (m' & g & Hrun & Hlen & Hshape).
  { rewrite repeat_length. lia. }
  { apply zeros_three_columns. }
  rewrite Hrun in Hinit. inversion Hinit; subst m0 st1.
  exists m', l, (g, snd st). rewrite repeat_length in Hlen. auto.
Qed.

(** Where every point has [dims] coordinates and [dims] is at least 4,
    what the read of index 3 gave is the coordinate of index 3. *)
Lemma read_fourth_fourth (pts : list point) (xs : list float) :
  4 <= dims ->
  Forall (fun pt => List.length pt = dims) pts ->
  Forall2 read_fourth pts xs ->
  Forall2 fourth pts xs.
Proof.
  intros Hd Hpts Hread. induction Hread as [| pt x pts xs Hx _ IH];
    [constructor |].
  inversion Hpts as [| ? ? Hpt Hrest]; subst.
  constructor; [| exact (IH Hrest)].
  unfold fourth. destruct (nth_error pt 3) as [y |] eqn:Hy.
  - now rewrite (Hx y Hy).
  - apply nth_error_None in Hy. lia.
Qed.

Lemma metropolis_hastings_points (st st' : state) (r : run) :
  metropolis_hastings pfunc iter alpha dims st = (Ok r, st') ->
  List.length (run_samples r) = iter - 1 /\
  List.length (run_test r) = iter - 1 /\
  Forall (fun pt => List.length pt = dims) (run_samples r) /\
  (4 <= dims -> Forall2 fourth (run_samples r) (run_test r)).
Proof.
  intros Hm.
  destruct (@metropolis_hastings_samples _ pfunc iter alpha dims _ _ _ Hm)
    as [Hread Hlen].
  destruct (@metropolis_hastings_inv _ _ _ Hm) as (m0 & l & st1 & Hshape & _ & Hloop & ->).
  destruct (@mh_loop_shape _ _ _ _ _ _ Hloop Hshape (Forall_nil _)) as (_ & Hpts & _).
  split; [exact Hlen |].
  split; [rewrite <- (Forall2_length Hread); exact Hlen |].
  split; [exact Hpts |].
  intros Hd. exact (@read_fourth_fourth _ _ Hd Hpts Hread).
Qed.

(** Every run made for the walkers returns as many entries in [test] as
    samples, and they are the coordinates of index 3 of the samples when
    the points have at least 4 coordinates. *)
Lemma walks_points (walkers : nat) (st : state) :
  Forall (fun r => List.length (run_test r) = List.length (run_samples r) /\
                   (4 <= dims -> Forall2 fourth (run_samples r) (run_test r)))
    (walks pfunc iter alpha dims walkers st).
Proof.
  revert st. induction walkers as [| n IH]; intros st; simpl; [constructor |].
  destruct (metropolis_hastings pfunc iter alpha dims st) as [[e | r] st1] eqn:Hm;
    [constructor |].
  constructor; [| apply IH].
  destruct (@metropolis_hastings_points st st1 r Hm) as (Hs & Ht & _ & Hf).
  split; [now rewrite Hs, Ht | exact Hf].
Qed.

(** A run of the sampler that returns gives [iter - 1] sample points, the
    first turn being discarded, each with [dims] coordinates, and as many
    entries in [test]: the coordinate of index 3 of each sample, in
    order, when the points have at least 4 coordinates. *)
Theorem sampler_returns_points (st st' : state) (r : run) :
  metropolis_hastings pfunc iter alpha dims st = (Ok r, st') ->
  List.length (run_samples r) = iter - 1 /\
  List.length (run_test r) = iter - 1 /\
  Forall (fun pt => List.length pt = dims) (run_samples r) /\
  (4 <= dims -> Forall2 fourth (run_samples r) (run_test r)).
Proof. apply metropolis_hastings_points. Qed.

Lemma metropolis_hastings_dims (st st' : state) (r : run) :
  metropolis_hastings pfunc iter alpha dims st = (Ok r, st') ->
  1 <= iter -> dims mod 3 = 0 /\ 3 <= dims.
Proof.
  intros Hm Hi.
  destruct (@metropolis_hastings_inv _ _ _ Hm) as (m0 & l & st1 & Hshape & Hrows & Hloop & ->).
  destruct (@mh_loop_shape _ _ _ _ _ _ Hloop Hshape (Forall_nil _)) as (_ & _ & Hd).
  cbn [initial_matrix] in Hd. unfold int_dims_3 in Hrows.
  destruct Hd as [Hd Hne]; [lia |].
  pose proof (Nat.div_mod_eq dims 3) as Hdm. rewrite Hrows in Hd. lia.
Qed.

(** The dimensionality the sampler needs: a run with at least one turn
    returns only when [dims] is a multiple of 3 and at least 3; otherwise
    the generator, the row access or the reshape raises. *)
Theorem sampler_needs_whole_electrons (st st' : state) (r : run) :
  metropolis_hastings pfunc iter alpha dims st = (Ok r, st') ->
  1 <= iter ->
  dims mod 3 = 0 /\ 3 <= dims.
Proof. apply metropolis_hastings_dims. Qed.

Lemma metropolis_hastings_no_turns (st : state) :
  exists g,
    metropolis_hastings pfunc 0 alpha dims st
    = (Ok ([], PyFloat.zero, []), (g, snd st)).
Proof.
  destruct (@initial_positions_run (int_dims_3 dims) 0
              (repeat (repeat PyFloat.zero 3) (int_dims_3 dims)) st)
    as (m' & g & Hrun & _ & _).
  { rewrite repeat_length. lia. }
  { apply zeros_three_columns. }
  exists g. unfold metropolis_hastings.
  rewrite (bind_ok _ _ Hrun). reflexivity.
Qed.

(** Without turns the sampler still draws the initial positions, and
    returns no sample, the rejection ratio 0 and an empty [test], for
    every density and every dimensionality, leaving the console as it
    is. *)
Theorem sampler_without_turns (st : state) :
  exists g,
    value (metropolis_hastings pfunc 0 alpha dims) st
      = Ok ([], PyFloat.zero, []) /\
    after (metropolis_hastings pfunc 0 alpha dims) st = (g, snd st).
Proof.
  destruct (metropolis_hastings_no_turns st) as (g & Hrun).
  exists g. unfold value, after. rewrite Hrun. split; reflexivity.
Qed.

End SamplerShape.

Lemma sampler_returns_points_witness :
  List.length
    (run_samples
       ([repeat PyFloat.zero 6; repeat PyFloat.zero 6], PyFloat.zero,
        [PyFloat.zero; PyFloat.zero])) = 3 - 1.
Proof.
  refine (proj1
    (@sampler_returns_points Sample.random Sample.unit_func 3 PyFloat.one 6
       (O, []) (21, []) _ _)).
  vm_compute. reflexivity.
Defined.

Lemma sampler_needs_whole_electrons_witness : 6 mod 3 = 0 /\ 3 <= 6.
Proof.
  refine (@sampler_needs_whole_electrons Sample.random Sample.unit_func 3
            PyFloat.one 6 (O, []) (21, [])
            ([repeat PyFloat.zero 6; repeat PyFloat.zero 6], PyFloat.zero,
             [PyFloat.zero; PyFloat.zero]) _ _).
  - vm_compute. reflexivity.
  - lia.
Defined.

(* ================================================================== *)
(** ** optipack.py: what the integrator returns *)

Section IntegratorClaim.

Context {G : Random}.
Import optipack.

Variables (pfunc qfunc : func) (sample_iter : nat) (alpha : float) (dims : nat).

(** The loop over the walkers: the k-th turn makes the k-th run of the
    sampler and writes the k-th entry of [vals]. *)
Lemma walkers_loop (n : nat) :
  forall (k : nat) (l l' : walk_locals) (st st' : state) (done rest : list float),
    vals l = done ++ rest ->
    List.length done = k ->
    for_each (seq k n) (walker pfunc qfunc sample_iter alpha dims) l st
      = (Ok l', st') ->
    exists vs qss,
      List.length (walks pfunc sample_iter alpha dims n st) = n /\
      Forall2 (fun r qs => observe qfunc alpha (run_samples r) = Ok qs)
        (walks pfunc sample_iter alpha dims n st) qss /\
      Forall2 (fun qs v => truediv (np_sum qs) (of_nat (sample_iter - 0)) = Ok v)
        qss vs /\
      vals l' = done ++ vs ++ skipn n rest /\
      w_test l' = w_test l ++ List.concat qss /\
      rejects l' = last (map (fun r => Some (run_rejects r))
                           (walks pfunc sample_iter alpha dims n st)) (rejects l) /\
      p l' = last (map (fun r => Some (run_test r))
                     (walks pfunc sample_iter alpha dims n st)) (p l).
Proof.
  induction n as [| n IH]; intros k l l' st st' done rest Hvals Hk Hloop.
  - simpl in Hloop. unfold ret in Hloop. inversion Hloop; subst l' st'.
    exists [], []. simpl. rewrite app_nil_r.
    repeat split; auto.
  - simpl in Hloop. apply bind_inv in Hloop.
    destruct Hloop as (l1 & st1 & Hw & Hloop).
    apply walker_inv in Hw.
    destruct Hw as (r & qs & v & vals' & Hmh & Hobs & Hv & Hset & Hl1).
    rewrite Hvals, <- Hk, set_index_app in Hset.
    destruct rest as [| y rest']; [discriminate Hset |].
    inversion Hset; subst vals'. clear Hset.
    destruct (IH (S k) l1 l' st1 st' (done ++ [v]) rest')
      as (vs & qss & Hlen & Hqs & Hvs & Hvals' & Htest & Hrej & Hp).
    { subst l1. simpl. now rewrite <- app_assoc. }
    { rewrite length_app. simpl. lia. }
    { exact Hloop. }
    assert (Hwalks : walks pfunc sample_iter alpha dims (S n) st
                     = r :: walks pfunc sample_iter alpha dims n st1)
      by (simpl; rewrite Hmh; reflexivity).
    exists (v :: vs), (qs :: qss). rewrite Hwalks.
    repeat split.
    + simpl. now rewrite Hlen.
    + constructor; assumption.
    + constructor; assumption.
    + rewrite Hvals', <- app_assoc. reflexivity.
    + rewrite Htest. subst l1. simpl. now rewrite <- app_assoc.
    + rewrite Hrej. subst l1. cbn [map rejects]. now rewrite last_cons.
    + rewrite Hp. subst l1. cbn [map p]. now rewrite last_cons.
Qed.

Lemma skipn_repeat {A} (x : A) (n : nat) : skipn n (repeat x n) = [].
Proof. induction n; simpl; auto. Qed.

(** C9, as amended. Whenever the integrator returns, its first component
    is the sum over the walkers of the per-walker values divided by the
    number of walkers, each per-walker value being the sum of the
    observable over the points that walker sampled divided by a divisor
    common to all walkers; the second is the square root of
    (sum of squares / walkers - mean^2) / walkers; the third is the
    rejection ratio of the last walker's sampling; the fourth lists the
    observable at every sampled point of every walker, in order; the
    fifth has one entry for each point the last walker sampled, which is
    the coordinate of index 3 of that point whenever the points have at
    least 4 coordinates. *)
Theorem integrator_mcmc_returns (walkers : nat) (st st' : state)
    (vals_avg std_error rejected : float) (test pp : list float) :
  integrator_mcmc pfunc qfunc sample_iter walkers alpha dims st
    = (Ok (vals_avg, std_error, rejected, test, pp), st') ->
  let runs := walks pfunc sample_iter alpha dims walkers st in
  List.length runs = walkers /\
  exists (values : list float) (qss : list (list float)) (divisor : float),
    Forall2 (fun r qs => observe qfunc alpha (run_samples r) = Ok qs) runs qss /\
    Forall2 (fun qs v => truediv (np_sum qs) divisor = Ok v) qss values /\
    truediv (np_sum values) (of_nat walkers) = Ok vals_avg /\
    (exists m2 v_w,
       truediv (np_sum (map square values)) (of_nat walkers) = Ok m2 /\
       truediv (PyFloat.sub m2 (square vals_avg)) (of_nat walkers) = Ok v_w /\
       std_error = PyFloat.sqrt v_w) /\
    test = List.concat qss /\
    exists last_run,
      last (map Some runs) None = Some last_run /\
      rejected = run_rejects last_run /\
      pp = run_test last_run /\
      List.length pp = List.length (run_samples last_run) /\
      (4 <= dims -> Forall2 fourth (run_samples last_run) pp).
Proof.
  intros Hi runs. unfold integrator_mcmc in Hi.
  apply bind_inv in Hi. destruct Hi as (l & st1 & Hloop & Hi).
  apply bind_inv in Hi. destruct Hi as (avg & st2 & Havg & Hi).
  apply lift_inv in Havg. destruct Havg as [Havg ->].
  apply bind_inv in Hi. destruct Hi as (m2 & st3 & Hm2 & Hi).
  apply lift_inv in Hm2. destruct Hm2 as [Hm2 ->].
  apply bind_inv in Hi. destruct Hi as (v_w & st4 & Hvw & Hi).
  apply lift_inv in Hvw. destruct Hvw as [Hvw ->].
  apply bind_inv in Hi. destruct Hi as (rej & st5 & Hrej & Hi).
  apply lift_inv in Hrej. destruct Hrej as [Hrej ->].
  apply bind_inv in Hi. destruct Hi as ([] & st6 & _ & Hi).
  apply bind_inv in Hi. destruct Hi as (p0 & st7 & Hp & Hi).
  apply lift_inv in Hp. destruct Hp as [Hp ->].
  unfold ret in Hi. inversion Hi; subst avg std_error rej test p0 st'. clear Hi.
  destruct (@walkers_loop walkers 0
              (mkWalk (repeat PyFloat.zero walkers) [] None None) l st st1 []
              (repeat PyFloat.zero walkers) eq_refl eq_refl Hloop)
    as (vs & qss & Hlen & Hqs & Hvs & Hvals & Htest & Hrl & Hpl).
  fold runs in Hlen, Hqs, Hrl, Hpl.
  rewrite skipn_repeat, app_nil_r in Hvals. simpl in Hvals, Htest.
  rewrite (last_map_Some run_rejects) in Hrl.
  rewrite (last_map_Some run_test) in Hpl.
  rewrite Hvals in Havg, Hm2.
  split; [exact Hlen |].
  exists vs, qss, (of_nat (sample_iter - 0)).
  split; [exact Hqs |]. split; [exact Hvs |]. split; [exact Havg |].
  split; [exists m2, v_w; auto |]. split; [exact Htest |].
  destruct (last (map Some runs) None) as [last_run |] eqn:Hlast.
  - exists last_run. rewrite Hrl in Hrej. rewrite Hpl in Hp.
    simpl in Hrej, Hp. inversion Hrej. inversion Hp.
    apply last_Some_In in Hlast.
    pose proof (walks_points pfunc sample_iter alpha dims walkers st) as Hall.
    rewrite Forall_forall in Hall. destruct (Hall _ Hlast) as [Hsame Hfourth].
    repeat split; assumption.
  - rewrite Hrl in Hrej. discriminate Hrej.
Qed.

End IntegratorClaim.

Lemma integrator_mcmc_returns_witness :
  List.length
    (walks (G := Sample.random) Sample.unit_func 2 PyFloat.one 6 1 (O, [])) = 1.
Proof.
  refine (proj1
    (@integrator_mcmc_returns Sample.random Sample.unit_func Sample.unit_func
       2 PyFloat.one 6 1 (O, [])
       (16, [optipack.Print_cycle Sample.half PyFloat.zero PyFloat.zero PyFloat.one])
       Sample.half PyFloat.zero PyFloat.zero [PyFloat.one] [PyFloat.zero] _)).
  vm_compute. reflexivity.
Defined.

(** C9, refuted as stated: one walker that draws two proposals of a
    six-dimensional point, with the constant density and the constant
    observable 1. One point is sampled, so the arithmetic average of the
    observable is 1, and the integrator returns 0.5; and none of the five
    returned components is the list of sampled points. *)
Lemma returns_mean_and_samples_fails :
  ~ returns_mean_and_samples (G := Sample.random)
      Sample.unit_func Sample.unit_func 2 1 PyFloat.one 6 (O, [])
  /\
  exists r st',
    optipack.integrator_mcmc (G := Sample.random)
      Sample.unit_func Sample.unit_func 2 1 PyFloat.one 6 (O, []) = (Ok r, st') /\
    mean_of_averages (G := Sample.random)
      Sample.unit_func Sample.unit_func 2 1 PyFloat.one 6 (O, []) = Ok PyFloat.one /\
    first_component r = Sample.half /\
    ~ In (of_points
            (flat_map run_samples
               (walks (G := Sample.random) Sample.unit_func 2 PyFloat.one 6 1 (O, []))))
         (components r).
Proof.
  split.
  - intros Hc.
    destruct (Hc (Sample.half, PyFloat.zero, PyFloat.zero, [PyFloat.one], [PyFloat.zero])
                 (16, [optipack.Print_cycle Sample.half PyFloat.zero PyFloat.zero
                         PyFloat.one])) as [Hmean _].
    + vm_compute. reflexivity.
    + vm_compute in Hmean. discriminate Hmean.
  - exists (Sample.half, PyFloat.zero, PyFloat.zero, [PyFloat.one], [PyFloat.zero]),
      (16, [optipack.Print_cycle Sample.half PyFloat.zero PyFloat.zero PyFloat.one]).
    split; [vm_compute; reflexivity |].
    split; [vm_compute; reflexivity |].
    split; [reflexivity |].
    vm_compute. intros [Hx | [Hx | [Hx | [Hx | [Hx | []]]]]]; discriminate Hx.
Qed.

(* ================================================================== *)
(** ** Further properties of the integrator of optipack.py *)

Section Silence.

Context {G : Random}.
Import optipack.

Lemma silent_ret {A} (a : A) : silent (ret a).
Proof. intros st. reflexivity. Qed.

Lemma silent_lift {A} (r : result A) : silent (lift r).
Proof. intros st. reflexivity. Qed.

Lemma silent_bind {A C} (c : MC A) (k : A -> MC C) :
  silent c -> (forall a, silent (k a)) -> silent (bind c k).
Proof.
  intros Hc Hk st. unfold after. rewrite bind_run.
  specialize (Hc st). unfold after in Hc.
  destruct (c st) as [[e | a] st1]; [exact Hc |].
  rewrite <- Hc. apply (Hk a st1).
Qed.

Lemma silent_for_each {A T} (body : T -> A -> MC T) (xs : list A) :
  (forall acc x, silent (body acc x)) ->
  forall acc, silent (for_each xs body acc).
Proof.
  intros Hb. induction xs as [| x xs IH]; intros acc; simpl.
  - apply silent_ret.
  - apply silent_bind; [apply Hb | intros a; apply IH].
Qed.

Lemma silent_rand : silent np_random_rand.
Proof.
  intros st. unfold after, np_random_rand. destruct (rand (fst st)). reflexivity.
Qed.

Lemma silent_rand3 : silent np_random_rand3.
Proof.
  unfold np_random_rand3.
  repeat (apply silent_bind; [apply silent_rand | intros ?]). apply silent_ret.
Qed.

Lemma silent_randint (low high : float) : silent (np_random_randint low high).
Proof.
  intros st. unfold after, np_random_randint.
  destruct (randint low high (fst st)). reflexivity.
Qed.

Lemma silent_unchecked_read (l : point) (i : nat) : silent (unchecked_read l i).
Proof. intros st. reflexivity. Qed.

Lemma silent_mh_step (pfunc : func) (iter : nat) (alpha : float) (dims : nat)
    (l : mh_locals) (i : nat) :
  silent (mh_step pfunc iter alpha dims l i).
Proof.
  unfold mh_step.
  repeat first
    [ apply silent_ret | apply silent_lift | apply silent_rand
    | apply silent_rand3 | apply silent_randint | apply silent_unchecked_read
    | apply silent_bind; [| intros ?]
    | match goal with
      | |- silent (if ?b then _ else _) => destruct b
      end ].
Qed.

(** The sampler prints nothing, whether it returns or raises. *)
Lemma silent_metropolis_hastings (pfunc : func) (iter : nat) (alpha : float)
    (dims : nat) :
  silent (metropolis_hastings pfunc iter alpha dims).
Proof.
  unfold metropolis_hastings.
  apply silent_bind;
    [apply silent_for_each; intros m i;
     repeat first [ apply silent_lift | apply silent_rand3
                  | apply silent_bind; [| intros ?] ]
    | intros m0].
  apply silent_bind;
    [apply silent_for_each; intros l i; apply silent_mh_step | intros l].
  apply silent_ret.
Qed.

Lemma silent_walker (pfunc qfunc : func) (sample_iter : nat) (alpha : float)
    (dims : nat) (l : walk_locals) (i : nat) :
  silent (walker pfunc qfunc sample_iter alpha dims l i).
Proof.
  unfold walker.
  apply silent_bind; [apply silent_metropolis_hastings | intros [[smp rej] pp]].
  apply silent_bind; [apply silent_lift | intros [sums test]].
  repeat first [ apply silent_ret | apply silent_lift
               | apply silent_bind; [| intros ?] ].
Qed.

End Silence.

Section IntegratorEdges.

Context {G : Random}.
Import optipack.

Variables (pfunc qfunc : func) (alpha : float) (dims : nat).

Lemma observe_length (pts : list point) (qs : list float) :
  observe qfunc alpha pts = Ok qs -> List.length qs = List.length pts.
Proof.
  revert qs. induction pts as [| x pts IH]; intros qs Ho; simpl in Ho.
  - inversion Ho. reflexivity.
  - apply rbind_inv in Ho. destruct Ho as (q & _ & Ho).
    apply rbind_inv in Ho. destruct Ho as (qs' & Hqs & Ho).
    inversion Ho. simpl. now rewrite (IH _ Hqs).
Qed.

(** Every run made for the walkers has [sample_iter - 1] samples and as
    many entries in [test]. *)
Lemma walks_count (sample_iter walkers : nat) (st : state) :
  Forall (fun r => List.length (run_samples r) = sample_iter - 1 /\
                   List.length (run_test r) = sample_iter - 1)
    (walks pfunc sample_iter alpha dims walkers st).
Proof.
  revert st. induction walkers as [| n IH]; intros st; simpl; [constructor |].
  destruct (metropolis_hastings pfunc sample_iter alpha dims st)
    as [[e | r] st1] eqn:Hm; [constructor |].
  constructor; [| apply IH].
  destruct (@metropolis_hastings_samples _ pfunc sample_iter alpha dims _ _ _ Hm)
    as [Hfourth Hlen].
  split; [exact Hlen | rewrite <- (Forall2_length Hfourth); exact Hlen].
Qed.

(** What a run of the integrator that returns went through. *)
Lemma integrator_mcmc_inv (sample_iter walkers : nat) (st st' : state)
    (vals_avg std_error rejected : float) (test pp : list float) :
  integrator_mcmc pfunc qfunc sample_iter walkers alpha dims st
    = (Ok (vals_avg, std_error, rejected, test, pp), st') ->
  exists (l : walk_locals) (st1 : state),
    for_each (seq 0 walkers) (walker pfunc qfunc sample_iter alpha dims)
      (mkWalk (repeat PyFloat.zero walkers) [] None None) st = (Ok l, st1) /\
    truediv (np_sum (vals l)) (of_nat walkers) = Ok vals_avg /\
    rejects l = Some rejected /\ p l = Some pp /\ w_test l = test /\
    st' = (fst st1, snd st1 ++ [Print_cycle vals_avg std_error rejected alpha]).
Proof.
  intros Hi. unfold integrator_mcmc in Hi.
  apply bind_inv in Hi. destruct Hi as (l & st1 & Hloop & Hi).
  apply bind_inv in Hi. destruct Hi as (avg & st2 & Havg & Hi).
  apply lift_inv in Havg. destruct Havg as [Havg ->].
  apply bind_inv in Hi. destruct Hi as (m2 & st3 & Hm2 & Hi).
  apply lift_inv in Hm2. destruct Hm2 as [Hm2 ->].
  apply bind_inv in Hi. destruct Hi as (v_w & st4 & Hvw & Hi).
  apply lift_inv in Hvw. destruct Hvw as [Hvw ->].
  apply bind_inv in Hi. destruct Hi as (rej & st5 & Hrej & Hi).
  apply lift_inv in Hrej. destruct Hrej as [Hrej ->].
  apply bind_inv in Hi. destruct Hi as ([] & st6 & Hprint & Hi).
  apply bind_inv in Hi. destruct Hi as (p0 & st7 & Hp & Hi).
  apply lift_inv in Hp. destruct Hp as [Hp ->].
  unfold ret in Hi. inversion Hi; subst avg std_error rej test p0 st'. clear Hi.
  unfold print in Hprint. inversion Hprint; subst st6.
  exists l, st1. repeat split; auto.
  - unfold bound in Hrej. destruct (rejects l); inversion Hrej; reflexivity.
  - unfold bound in Hp. destruct (p l); inversion Hp; reflexivity.
Qed.

End IntegratorEdges.

Section IntegratorEdgeClaims.

Context {G : Random}.
Import optipack.

Variables (pfunc qfunc : func) (alpha : float) (dims : nat).

Lemma integrator_mcmc_no_walkers (sample_iter : nat) (st : state) :
  integrator_mcmc pfunc qfunc sample_iter 0 alpha dims st
  = (Raise ZeroDivisionError, st).
Proof. reflexivity. Qed.

Lemma integrator_mcmc_no_iterations (n : nat) (st : state) :
  exists g,
    integrator_mcmc pfunc qfunc 0 (S n) alpha dims st
    = (Raise ZeroDivisionError, (g, snd st)).
Proof.
  destruct (metropolis_hastings_no_turns pfunc alpha dims st) as (g & Hrun).
  exists g. unfold integrator_mcmc. apply bind_raise.
  cbn [seq for_each]. apply bind_raise.
  unfold walker. rewrite (bind_ok _ _ Hrun). reflexivity.
Qed.

(** The integrator needs a walker and an iteration: without walkers, or
    without sampling iterations, it raises [ZeroDivisionError], at the
    mean over no walker or at the average over no iteration, for every
    density, observable and dimensionality, and prints nothing. *)
Theorem integrator_needs_walkers_and_iterations (sample_iter walkers : nat)
    (st : state) :
  walkers = 0 \/ sample_iter = 0 ->
  value (integrator_mcmc pfunc qfunc sample_iter walkers alpha dims) st
    = Raise ZeroDivisionError /\
  snd (after (integrator_mcmc pfunc qfunc sample_iter walkers alpha dims) st)
    = snd st.
Proof.
  unfold value, after. destruct walkers as [| n].
  - intros _. rewrite integrator_mcmc_no_walkers. split; reflexivity.
  - intros [Hw | ->]; [discriminate Hw |].
    destruct (integrator_mcmc_no_iterations n st) as (g & Hrun).
    rewrite Hrun. split; reflexivity.
Qed.

Lemma observe_nothing (runs : list run) (qss : list (list float)) (k : nat) :
  Forall (fun r => List.length (run_samples r) = k /\ List.length (run_test r) = k)
    runs ->
  Forall2 (fun r qs => observe qfunc alpha (run_samples r) = Ok qs) runs qss ->
  List.length (List.concat qss) = List.length runs * k.
Proof.
  intros Hall Hobs. induction Hobs as [| r qs runs qss Hq _ IH]; [reflexivity |].
  inversion Hall as [| ? ? Hhead Hrest]; subst. destruct Hhead as [Hr _].
  simpl. rewrite length_app, (observe_length _ _ _ Hq), Hr, (IH Hrest). reflexivity.
Qed.

(** The lists the integrator returns: one observable value for each of
    the [sample_iter - 1] samples of each walker in the fourth component,
    and [sample_iter - 1] coordinates in the fifth. *)
Theorem integrator_lists_lengths (sample_iter walkers : nat) (st st' : state)
    (vals_avg std_error rejected : float) (test pp : list float) :
  integrator_mcmc pfunc qfunc sample_iter walkers alpha dims st
    = (Ok (vals_avg, std_error, rejected, test, pp), st') ->
  List.length test = walkers * (sample_iter - 1) /\
  List.length pp = sample_iter - 1.
Proof.
  intros Hi.
  destruct (integrator_mcmc_inv _ _ _ _ _ _ _ Hi)
    as (l & st1 & Hloop & _ & _ & Hp & Htest & _).
  destruct (@walkers_loop _ pfunc qfunc sample_iter alpha dims walkers 0
              (mkWalk (repeat PyFloat.zero walkers) [] None None) l st st1 []
              (repeat PyFloat.zero walkers) eq_refl eq_refl Hloop)
    as (vs & qss & Hlen & Hqs & _ & _ & Hwt & _ & Hpl).
  pose proof (walks_count pfunc alpha dims sample_iter walkers st) as Hcount.
  split.
  - rewrite <- Htest, Hwt. simpl.
    rewrite (observe_nothing Hcount Hqs), Hlen. reflexivity.
  - rewrite (last_map_Some run_test) in Hpl. rewrite Hp in Hpl. simpl in Hpl.
    destruct (last (map Some (walks pfunc sample_iter alpha dims walkers st)) None)
      as [last_run |] eqn:Hlast; [| discriminate Hpl].
    inversion Hpl; subst pp.
    apply last_Some_In in Hlast. rewrite Forall_forall in Hcount.
    now destruct (Hcount _ Hlast).
Qed.

Lemma np_sum_zeros (vs : list float) :
  Forall (fun v => v = PyFloat.zero) vs -> np_sum vs = PyFloat.zero.
Proof.
  unfold np_sum. induction 1 as [| v vs Hv _ IH]; [reflexivity |].
  subst v. simpl. exact IH.
Qed.

(** With one sampling iteration no point is sampled and the observable
    is not used: whatever the observable is, the fourth component is
    empty and the mean is the float quotient of 0 by the number of
    walkers. *)
Theorem integrator_single_iteration (walkers : nat) (st st' : state)
    (vals_avg std_error rejected : float) (test pp : list float) :
  integrator_mcmc pfunc qfunc 1 walkers alpha dims st
    = (Ok (vals_avg, std_error, rejected, test, pp), st') ->
  vals_avg = PyFloat.div PyFloat.zero (of_nat walkers) /\ test = [].
Proof.
  intros Hi.
  destruct (integrator_mcmc_inv _ _ _ _ _ _ _ Hi)
    as (l & st1 & Hloop & Havg & _ & _ & Htest & _).
  destruct (@walkers_loop _ pfunc qfunc 1 alpha dims walkers 0
              (mkWalk (repeat PyFloat.zero walkers) [] None None) l st st1 []
              (repeat PyFloat.zero walkers) eq_refl eq_refl Hloop)
    as (vs & qss & Hlen & Hqs & Hvs & Hvals & Hwt & _ & _).
  pose proof (walks_count pfunc alpha dims 1 walkers st) as Hcount.
  assert (Hempty : Forall (fun qs => qs = []) qss).
  { clear - Hcount Hqs.
    induction Hqs as [| r qs runs qss Hq _ IH]; [constructor |].
    inversion Hcount as [| ? ? Hhead Hrest]; subst. destruct Hhead as [Hr _].
    constructor; [| exact (IH Hrest)].
    apply observe_length in Hq. rewrite Hr in Hq.
    destruct qs; [reflexivity | discriminate Hq]. }
  assert (Hzero : Forall (fun v => v = PyFloat.zero) vs).
  { clear - Hempty Hvs.
    induction Hvs as [| qs v qss vs Hv _ IH]; [constructor |].
    inversion Hempty as [| ? ? Hq Hrest]; subst.
    constructor; [| exact (IH Hrest)].
    vm_compute in Hv. inversion Hv. reflexivity. }
  split.
  - rewrite skipn_repeat, app_nil_r in Hvals. simpl in Hvals.
    rewrite Hvals, (np_sum_zeros Hzero) in Havg.
    unfold truediv in Havg. destruct (PyFloat.is_zero (of_nat walkers));
      inversion Havg. reflexivity.
  - rewrite <- Htest, Hwt. simpl.
    clear - Hempty. induction Hempty as [| qs qss Hq _ IH]; [reflexivity |].
    subst qs. exact IH.
Qed.

(** The integrator prints one line, after the last walker, and only when
    it returns: the line shows the mean, the standard error and the
    rejection ratio it returns and the parameter it was given. When it
    raises, nothing was printed. *)
Theorem integrator_prints_one_line (sample_iter walkers : nat) (st : state) :
  snd (after (integrator_mcmc pfunc qfunc sample_iter walkers alpha dims) st) =
  snd st ++
  match value (integrator_mcmc pfunc qfunc sample_iter walkers alpha dims) st with
  | inr (vals_avg, std_error, rejected, _, _) =>
      [Print_cycle vals_avg std_error rejected alpha]
  | inl _ => []
  end.
Proof.
  unfold after, value.
  destruct (integrator_mcmc pfunc qfunc sample_iter walkers alpha dims st)
    as [[e | [[[[vals_avg std_error] rejected] test] pp]] st'] eqn:Hi.
  - cbn [fst snd]. rewrite app_nil_r.
    unfold integrator_mcmc in Hi. rewrite bind_run in Hi.
    pose proof (silent_for_each
                  (walker pfunc qfunc sample_iter alpha dims) (seq 0 walkers)
                  (silent_walker pfunc qfunc sample_iter alpha dims)
                  (mkWalk (repeat PyFloat.zero walkers) [] None None) st) as Hquiet.
    unfold after in Hquiet.
    destruct (for_each (seq 0 walkers) _ _ st) as [[e1 | l] st1] eqn:Hloop;
      cbn [snd] in Hquiet.
    + inversion Hi; subst. exact Hquiet.
    + rewrite bind_run in Hi. unfold lift at 1 in Hi.
      destruct (truediv (np_sum (vals l)) (of_nat walkers)) as [e2 | avg];
        [inversion Hi; subst; exact Hquiet |].
      rewrite bind_run in Hi. unfold lift at 1 in Hi.
      destruct (truediv (np_sum (map square (vals l))) (of_nat walkers)) as [e3 | m2];
        [inversion Hi; subst; exact Hquiet |].
      rewrite bind_run in Hi. unfold lift at 1 in Hi.
      destruct (truediv (PyFloat.sub m2 (square avg)) (of_nat walkers)) as [e4 | v_w];
        [inversion Hi; subst; exact Hquiet |].
      rewrite bind_run in Hi. unfold lift at 1 in Hi.
      destruct (@walkers_loop _ pfunc qfunc sample_iter alpha dims walkers 0
                  (mkWalk (repeat PyFloat.zero walkers) [] None None) l st st1 []
                  (repeat PyFloat.zero walkers) eq_refl eq_refl Hloop)
        as (vs & qss & _ & _ & _ & _ & _ & Hrl & Hpl).
      rewrite (last_map_Some run_rejects) in Hrl.
      rewrite (last_map_Some run_test) in Hpl.
      destruct (last (map Some (walks pfunc sample_iter alpha dims walkers st)) None)
        as [last_run |]; cbn [rejects p] in Hrl, Hpl.
      * rewrite Hrl in Hi. cbn [bound] in Hi. unfold Ok at 1 in Hi.
        rewrite bind_run in Hi. unfold print at 1 in Hi. unfold Ok at 1 in Hi.
        rewrite bind_run in Hi. unfold lift at 1 in Hi. rewrite Hpl in Hi.
        cbn [bound] in Hi. unfold Ok at 1, ret in Hi. discriminate Hi.
      * rewrite Hrl in Hi. cbn [bound] in Hi. inversion Hi; subst. exact Hquiet.
  - cbn [fst snd].
    destruct (integrator_mcmc_inv _ _ _ _ _ _ _ Hi)
      as (l & st1 & Hloop & _ & _ & _ & _ & ->).
    pose proof (silent_for_each
                  (walker pfunc qfunc sample_iter alpha dims) (seq 0 walkers)
                  (silent_walker pfunc qfunc sample_iter alpha dims)
                  (mkWalk (repeat PyFloat.zero walkers) [] None None) st) as Hquiet.
    unfold after in Hquiet. rewrite Hloop in Hquiet. cbn [snd] in *.
    now rewrite Hquiet.
Qed.

End IntegratorEdgeClaims.

Lemma integrator_needs_walkers_and_iterations_witness :
  value (optipack.integrator_mcmc (G := Sample.random)
           Sample.unit_func Sample.unit_func 5 0 PyFloat.one 6) (O, [])
  = Raise ZeroDivisionError.
Proof.
  refine (proj1
    (@integrator_needs_walkers_and_iterations Sample.random
       Sample.unit_func Sample.unit_func PyFloat.one 6 5 0 (O, []) _)).
  left. reflexivity.
Defined.

Lemma integrator_lists_lengths_witness :
  List.length [PyFloat.one; PyFloat.one; PyFloat.one; PyFloat.one] = 2 * (3 - 1).
Proof.
  refine (proj1
    (@integrator_lists_lengths Sample.random
       Sample.unit_func Sample.unit_func PyFloat.one 6 3 2 (O, [])
       (42, [optipack.Print_cycle (S754_finite false 6004799503160661 (-53))
               PyFloat.zero PyFloat.zero PyFloat.one])
       (S754_finite false 6004799503160661 (-53)) PyFloat.zero PyFloat.zero
       [PyFloat.one; PyFloat.one; PyFloat.one; PyFloat.one]
       [PyFloat.zero; PyFloat.zero] _)).
  vm_compute. reflexivity.
Defined.

Lemma integrator_single_iteration_witness :
  PyFloat.zero = PyFloat.div PyFloat.zero (optipack.of_nat 2).
Proof.
  refine (proj1
    (@integrator_single_iteration Sample.random
       Sample.unit_func Sample.unit_func PyFloat.one 6 2 (O, [])
       (22, [optipack.Print_cycle PyFloat.zero PyFloat.zero PyFloat.zero PyFloat.one])
       PyFloat.zero PyFloat.zero PyFloat.zero [] [] _)).
  vm_compute. reflexivity.
Defined.

Section IntegratorNeeds.

Context {G : Random}.
Import optipack.

Variables (pfunc qfunc : func) (alpha : float) (dims : nat).

(** What the integrator needs to return at all, for natural numbers of
    walkers and iterations: at least one walker, at least one sampling
    iteration, and a dimensionality that is a multiple of 3 and at least
    3, whatever the density, the observable and the random numbers. *)
Theorem integrator_needs (sample_iter walkers : nat) (st st' : state)
    (vals_avg std_error rejected : float) (test pp : list float) :
  integrator_mcmc pfunc qfunc sample_iter walkers alpha dims st
    = (Ok (vals_avg, std_error, rejected, test, pp), st') ->
  1 <= walkers /\ 1 <= sample_iter /\ dims mod 3 = 0 /\ 3 <= dims.
Proof.
  intros Hi.
  destruct walkers as [| n];
    [rewrite integrator_mcmc_no_walkers in Hi; discriminate Hi |].
  destruct sample_iter as [| m].
  { destruct (integrator_mcmc_no_iterations pfunc qfunc alpha dims n st)
      as (g & Hrun).
    rewrite Hrun in Hi. discriminate Hi. }
  destruct (integrator_mcmc_inv _ _ _ _ _ _ _ Hi) as (l & st1 & Hloop & _).
  destruct (@walkers_loop _ pfunc qfunc (S m) alpha dims (S n) 0
              (mkWalk (repeat PyFloat.zero (S n)) [] None None) l st st1 []
              (repeat PyFloat.zero (S n)) eq_refl eq_refl Hloop)
    as (vs & qss & Hlen & _).
  simpl walks in Hlen.
  destruct (metropolis_hastings pfunc (S m) alpha dims st) as [[e | r] st2] eqn:Hm;
    [discriminate Hlen |].
  destruct (@metropolis_hastings_dims _ pfunc (S m) alpha dims st st2 r Hm)
    as [Hmod Hge]; [lia |].
  repeat split; try lia; auto.
Qed.

End IntegratorNeeds.

Lemma integrator_needs_witness : 1 <= 2 /\ 1 <= 3.
Proof.
  destruct
    (@integrator_needs Sample.random
       Sample.unit_func Sample.unit_func PyFloat.one 6 3 2 (O, [])
       (42, [optipack.Print_cycle (S754_finite false 6004799503160661 (-53))
               PyFloat.zero PyFloat.zero PyFloat.one])
       (S754_finite false 6004799503160661 (-53)) PyFloat.zero PyFloat.zero
       [PyFloat.one; PyFloat.one; PyFloat.one; PyFloat.one]
       [PyFloat.zero; PyFloat.zero])
    as (Hw & Hi & _).
  - vm_compute. reflexivity.
  - split; [exact Hw | exact Hi].
Defined.
